(** * dnsgate: the domain-set reconciliation engine

    A shallow embedding of [src/dnsgate/dnsgate.py]: the normalizer
    ([extract_domain_set_from_hosts_format_bytes],
    [extract_domain_set_from_dnsgate_format_file]), the public-root reducer
    ([extract_psl_domain], [strip_to_psl]), the reconciliation part of
    [generate], the pruner ([prune_redundant_rules]) and the grouper
    ([group_by_tld]).

    Python [bytes] are [string]s (sequences of 8-bit [ascii] characters).
    A Python [set] of bytes is a list (duplicate-free when built by the
    program): its order stands for the iteration order of the set, which
    Python leaves unspecified, and the theorems on sets quantify over
    every list, hence over every order.  Exceptions and [quit] are values
    of an error monad; the files and the service a run touches are
    explicit state. *)

From Stdlib Require Import String Ascii List Bool Arith NArith Lia.
From Stdlib Require Import ListSet Permutation Sorted.
Import ListNotations.
Open Scope string_scope.

(** ** Exceptions *)

Inductive exn : Type :=
| KeyError (key : string)
| SystemExit (code : nat).

Inductive result (A : Type) : Type :=
| Ok (a : A)
| Raise (e : exn).

Arguments Ok {A} a.
Arguments Raise {A} e.

Definition bind {A B : Type} (m : result A) (k : A -> result B) : result B :=
  match m with
  | Ok a => k a
  | Raise e => Raise e
  end.

Notation "x <- m ;; k" := (bind m (fun x => k))
  (at level 61, m at next level, right associativity).

(** ** Python [bytes] methods used by the program *)

Module Bytes.

Definition bytes : Type := string.

Definition TAB : ascii := "009"%char.
Definition LF : ascii := "010"%char.
Definition VT : ascii := "011"%char.
Definition FF : ascii := "012"%char.
Definition CR : ascii := "013"%char.

(** ASCII whitespace, as [bytes.split()] and [bytes.strip()] see it. *)
Definition isspace (c : ascii) : bool :=
  Ascii.eqb c " " || Ascii.eqb c TAB || Ascii.eqb c LF
  || Ascii.eqb c CR || Ascii.eqb c VT || Ascii.eqb c FF.

Definition nonempty (s : bytes) : bool := negb (String.eqb s "").

(** [c in s] for a one-byte [c]. *)
Fixpoint contains (c : ascii) (s : bytes) : bool :=
  match s with
  | EmptyString => false
  | String c' s' => Ascii.eqb c' c || contains c s'
  end.

(** Cut at every byte satisfying [p]; empty pieces are kept. *)
Fixpoint split_by (p : ascii -> bool) (s : bytes) : list bytes :=
  match s with
  | EmptyString => [EmptyString]
  | String c s' =>
      if p c then EmptyString :: split_by p s'
      else match split_by p s' with
           | [] => [String c EmptyString]
           | h :: t => String c h :: t
           end
  end.

(** [s.split(sep)] for a one-byte separator. *)
Definition split (sep : ascii) (s : bytes) : list bytes :=
  split_by (fun c => Ascii.eqb c sep) s.

(** [s.split()]: cut at runs of whitespace, no empty pieces. *)
Definition split_ws (s : bytes) : list bytes :=
  filter nonempty (split_by isspace s).

(** [sep.join(l)]. *)
Fixpoint join (sep : bytes) (l : list bytes) : bytes :=
  match l with
  | [] => ""
  | x :: rest =>
      match rest with
      | [] => x
      | _ :: _ => x ++ sep ++ join sep rest
      end
  end.

(** [s.replace(old, new)] for one-byte [old] and [new]. *)
Fixpoint replace (old new : ascii) (s : bytes) : bytes :=
  match s with
  | EmptyString => EmptyString
  | String c s' =>
      String (if Ascii.eqb c old then new else c) (replace old new s')
  end.

Fixpoint lstrip (s : bytes) : bytes :=
  match s with
  | EmptyString => EmptyString
  | String c s' => if isspace c then lstrip s' else s
  end.

Fixpoint rstrip (s : bytes) : bytes :=
  match s with
  | EmptyString => EmptyString
  | String c s' =>
      match rstrip s' with
      | EmptyString => if isspace c then EmptyString else String c EmptyString
      | r => String c r
      end
  end.

Definition strip (s : bytes) : bytes := rstrip (lstrip s).

(** [s.splitlines()] on bytes: lines end at LF, CR or CR LF, and there
    is no empty last line. *)
Fixpoint splitlines (s : bytes) : list bytes :=
  match s with
  | EmptyString => []
  | String c s' =>
      if Ascii.eqb c LF then EmptyString :: splitlines s'
      else if Ascii.eqb c CR then
        match s' with
        | String c2 s'' =>
            if Ascii.eqb c2 LF then EmptyString :: splitlines s''
            else EmptyString :: splitlines s'
        | EmptyString => [EmptyString]
        end
      else match splitlines s' with
           | [] => [String c EmptyString]
           | h :: t => String c h :: t
           end
  end.

End Bytes.
Import Bytes.

(** ** Python sets of bytes *)

Definition DomainSet : Type := set bytes.

Definition mem (d : bytes) (s : DomainSet) : bool := set_mem string_dec d s.
Definition add (d : bytes) (s : DomainSet) : DomainSet := set_add string_dec d s.
Definition union (s t : DomainSet) : DomainSet := set_union string_dec s t.
Definition diff (s t : DomainSet) : DomainSet := set_diff string_dec s t.

(** [s.remove(d)]: raises [KeyError] when [d] is not in [s]. *)
Definition remove (d : bytes) (s : DomainSet) : result DomainSet :=
  if mem d s then Ok (set_remove string_dec d s) else Raise (KeyError d).

(** ** Domain Normalizer *)

Fixpoint remove_comments_from_bytes (line : bytes) : bytes :=
  match line with
  | EmptyString => EmptyString
  | String char rest =>
      if Ascii.eqb char "#" then EmptyString
      else String char (remove_comments_from_bytes rest)
  end.

(** [b'.'.join(list(filter(None, line.split(b'.'))))], the expression both
    extractors use to ignore leading and trailing dots. *)
Definition join_nonempty_labels (line : bytes) : bytes :=
  join "." (filter nonempty (split "." line)).

(** One iteration of the loop of [extract_domain_set_from_dnsgate_format_file]. *)
Definition dnsgate_format_line (domains : DomainSet) (line : bytes) : DomainSet :=
  let line := strip line in
  let line := remove_comments_from_bytes line in
  let line := join_nonempty_labels line in
  if Nat.ltb 0 (String.length line) then add line domains else domains.

(** The function receives the bytes that [read_file_bytes] returned. *)
Definition extract_domain_set_from_dnsgate_format_file
    (dnsgate_file_bytes : bytes) : DomainSet :=
  fold_left dnsgate_format_line (splitlines dnsgate_file_bytes) [].

(** The line as it stands when the [if b' ' in line] test is made. *)
Definition hosts_format_clean_line (line : bytes) : bytes :=
  let line := replace TAB " " line in
  let line := join " " (split_ws line) in
  let line := strip line in
  remove_comments_from_bytes line.

(** One iteration of the loop of [extract_domain_set_from_hosts_format_bytes].
    [line.split(b' ')[1]] is in range whenever the line contains a space
    (lemma [hosts_field_in_range]). *)
Definition hosts_format_line (domains : DomainSet) (line : bytes) : DomainSet :=
  let line := hosts_format_clean_line line in
  if contains " " line then
    let line := nth 1 (split " " line) "" in
    let line := join_nonempty_labels line in
    add line domains
  else domains.

Definition extract_domain_set_from_hosts_format_bytes
    (hosts_format_bytes : bytes) : DomainSet :=
  fold_left hosts_format_line (split LF hosts_format_bytes) [].

(** ** External collaborators

    [validate_domain_list] goes through Python's [idna] codec and
    [extract_psl_domain] through the [tldextract] library.  Neither is code
    of this repository: the engine is parameterised over both. *)

Record ExtractResult : Type := mkExtractResult {
  subdomain : bytes;
  domain : bytes;
  suffix : bytes
}.

Inductive Mode : Type := dnsmasq | hosts.

Definition Mode_eqb (a b : Mode) : bool :=
  match a, b with
  | dnsmasq, dnsmasq | hosts, hosts => true
  | _, _ => false
  end.

Section Engine.

(** [hostname.decode('utf-8').encode('idna').decode('ascii').encode('utf-8')];
    [None] when one of the four steps raises. *)
Variable idna : bytes -> option bytes.

(** [TLD_EXTRACT], on the decoded name; the names it is given went through
    [validate_domain_list], so their decoding does not raise. *)
Variable TLD_EXTRACT : bytes -> ExtractResult.

Definition validate_domain_list (domains : DomainSet) : DomainSet :=
  fold_left
    (fun valid_domains hostname =>
       match idna hostname with
       | Some hostname => add hostname valid_domains
       | None => valid_domains
       end)
    domains [].

(** ** Public-Root Reducer *)

Definition extract_psl_domain (d : bytes) : bytes :=
  let dom := TLD_EXTRACT d in
  domain dom ++ "." ++ suffix dom.

Definition strip_to_psl (domains : DomainSet) : DomainSet :=
  fold_left
    (fun domains_stripped line => add (extract_psl_domain line) domains_stripped)
    domains [].

(** ** Rule-Set Reconciler: lines 794-860 of [generate] *)

(** Lines 810-813; the [remove] is guarded by the membership test. *)
Definition unblock_whitelisted_psl
    (domains_whitelist domains_combined : DomainSet) : DomainSet :=
  fold_left
    (fun domains_combined d =>
       let domain_psl := extract_psl_domain d in
       if mem domain_psl domains_combined
       then set_remove string_dec domain_psl domains_combined
       else domains_combined)
    domains_whitelist domains_combined.

(** Lines 819-828; [domains_combined] is updated while the loop runs. *)
Definition readd_subdomains
    (domains_combined_orig domains_whitelist domains_combined : DomainSet)
  : DomainSet :=
  fold_left
    (fun domains_combined orig_domain =>
       if negb (mem orig_domain domains_whitelist) then
         if negb (mem orig_domain domains_combined) then
           let orig_domain_psl := extract_psl_domain orig_domain in
           if negb (mem orig_domain_psl domains_combined)
           then add orig_domain domains_combined
           else domains_combined
         else domains_combined
       else domains_combined)
    domains_combined_orig domains_combined.

(** [domains_combined_orig] is the validated blacklist of all sources,
    [domains_whitelist] the whitelist and [domains_blacklist] the local
    blacklist (empty when its file is missing). *)
Definition reconcile (block_at_psl : bool) (mode : Mode)
    (domains_combined_orig domains_whitelist domains_blacklist : DomainSet)
  : result DomainSet :=
  domains_combined <-
    (if block_at_psl && negb (Mode_eqb mode hosts) then
       let domains_combined := strip_to_psl domains_combined_orig in
       let domains_combined :=
         match domains_whitelist with
         | [] => domains_combined
         | _ :: _ =>
             unblock_whitelisted_psl domains_whitelist
               (diff domains_combined domains_whitelist)
         end in
       Ok (readd_subdomains domains_combined_orig domains_whitelist
             domains_combined)
     else if block_at_psl && Mode_eqb mode hosts then
       Raise (SystemExit 1)
     else Ok domains_combined_orig) ;;
  let domains_combined := diff domains_combined domains_whitelist in
  Ok (match domains_blacklist with
      | [] => domains_combined
      | _ :: _ => union domains_combined domains_blacklist
      end).

(** ** Redundancy Pruner *)

(** The inner loop of [prune_redundant_rules], over the values of [index]. *)
Fixpoint prune_indices (domains_orig : DomainSet) (d : bytes)
    (domain_parts_msb : list bytes) (indices : list nat)
    (domains : DomainSet) : result DomainSet :=
  match indices with
  | [] => Ok domains
  | index :: indices =>
      let domain_to_check := join "." (firstn index domain_parts_msb) in
      if mem domain_to_check domains_orig then
        domains <- remove d domains ;;
        prune_indices domains_orig d domain_parts_msb indices domains
      else prune_indices domains_orig d domain_parts_msb indices domains
  end.

Definition prune_domain (domains_orig : DomainSet) (d : bytes)
    (domains : DomainSet) : result DomainSet :=
  let domain_parts_msb := rev (split "." d) in
  prune_indices domains_orig d domain_parts_msb
    (seq 0 (List.length domain_parts_msb)) domains.

Fixpoint prune_loop (domains_orig : DomainSet) (todo : list bytes)
    (domains : DomainSet) : result DomainSet :=
  match todo with
  | [] => Ok domains
  | d :: todo =>
      domains <- prune_domain domains_orig d domains ;;
      prune_loop domains_orig todo domains
  end.

(** The function prunes its argument in place; the model returns the
    pruned set. *)
Definition prune_redundant_rules (domains : DomainSet) : result DomainSet :=
  let domains_orig := domains in
  prune_loop domains_orig domains_orig domains.

(** ** TLD Grouper/Sorter *)

(** [a < b] on lists of bytes: lexicographic, on elements that are
    themselves compared lexicographically by byte value. *)
Definition labels_compare : list bytes -> list bytes -> comparison :=
  list_compare String.compare.

Definition labels_lt (a b : list bytes) : bool :=
  match labels_compare a b with Lt => true | _ => false end.

(** [list.sort()], as a stable insertion sort that only asks [<]. *)
Fixpoint sort_insert (x : list bytes) (l : list (list bytes)) : list (list bytes) :=
  match l with
  | [] => [x]
  | y :: l' => if labels_lt y x then y :: sort_insert x l' else x :: y :: l'
  end.

Definition list_sort (l : list (list bytes)) : list (list bytes) :=
  fold_right sort_insert [] l.

Definition group_by_tld (domains : DomainSet) : list bytes :=
  let reversed_domains := map (fun d => rev (split "." d)) domains in
  let reversed_domains := list_sort reversed_domains in
  map (fun rev_domain => join "." (rev rev_domain)) reversed_domains.

End Engine.

(** ** The [generate] command *)

Record Dnsgate_Config : Type := mkConfig {
  mode : Mode;
  block_at_psl : bool;
  dest_ip : option string;
  backup : bool;
  no_restart_dnsmasq : bool;
  sources : list string
}.

(** What a run reads: the two local list files ([None] when the file is
    missing), the bytes each remote source yields ([None] when the fetch
    or the cache fails) and the header [make_output_file_header] builds. *)
Record Env : Type := mkEnv {
  whitelist_file : option bytes;
  blacklist_file : option bytes;
  url_bytes : string -> option bytes;
  output_file_header : bytes
}.

(** What a run can change: the output file ([None] when it does not
    exist), the backup copies made of it, and the dnsmasq service. *)
Record World : Type := mkWorld {
  output_file : option bytes;
  backup_files : list bytes;
  dnsmasq_restarts : nat
}.

Section Generate.

Variable idna : bytes -> option bytes.
Variable TLD_EXTRACT : bytes -> ExtractResult.

(** Lines 738-751. *)
Definition read_whitelist (env : Env) : DomainSet :=
  match whitelist_file env with
  | None => []
  | Some file_bytes =>
      match extract_domain_set_from_dnsgate_format_file file_bytes with
      | [] => []
      | domains_whitelist => validate_domain_list idna domains_whitelist
      end
  end.

(** Lines 760-790: a source that fails, or that yields no domain, is
    skipped. *)
Definition read_sources (config : Dnsgate_Config) (env : Env) : DomainSet :=
  validate_domain_list idna
    (fold_left
       (fun domains_combined_orig item =>
          if String.prefix "http" item then
            match url_bytes env item with
            | Some hosts_format_bytes =>
                match extract_domain_set_from_hosts_format_bytes
                        hosts_format_bytes with
                | [] => domains_combined_orig
                | domains => union domains_combined_orig domains
                end
            | None => domains_combined_orig
            end
          else domains_combined_orig)
       (sources config) []).

(** Lines 844-848. *)
Definition read_blacklist (env : Env) : DomainSet :=
  match blacklist_file env with
  | None => []
  | Some file_bytes => extract_domain_set_from_dnsgate_format_file file_bytes
  end.

(** Lines 738-871: the list [generate] holds in [domains_combined] when it
    turns to the output file. *)
Definition final_rule_set (config : Dnsgate_Config) (env : Env)
  : result (list bytes) :=
  let domains_whitelist := read_whitelist env in
  let domains_combined_orig := read_sources config env in
  domains_combined <-
    reconcile TLD_EXTRACT (block_at_psl config) (mode config)
      domains_combined_orig domains_whitelist (read_blacklist env) ;;
  let domains_combined := validate_domain_list idna domains_combined in
  domains_combined <- prune_redundant_rules domains_combined ;;
  Ok (group_by_tld domains_combined).

Definition truthy (s : option string) : option string :=
  match s with
  | Some EmptyString => None
  | other => other
  end.

(** Lines 894-906. *)
Definition render_line (config : Dnsgate_Config) (d : bytes) : bytes :=
  match mode config with
  | dnsmasq =>
      match truthy (dest_ip config) with
      | Some ip => "address=/." ++ d ++ "/" ++ ip ++ String LF ""
      | None => "server=/." ++ d ++ "/" ++ String LF ""
      end
  | hosts =>
      match truthy (dest_ip config) with
      | Some ip => ip ++ " " ++ d ++ String LF ""
      | None => "127.0.0.1" ++ " " ++ d ++ String LF ""
      end
  end.

Definition backup_file_if_exists (w : World) : World :=
  match output_file w with
  | Some content =>
      mkWorld (output_file w) (content :: backup_files w) (dnsmasq_restarts w)
  | None => w
  end.

(** The output file is opened lazily and atomically: nothing of it
    changes before the first [output.write], and the new content replaces
    the old one when the file is closed. *)
Definition write_output (config : Dnsgate_Config) (env : Env)
    (domains_combined : list bytes) (w : World) : World :=
  mkWorld
    (Some (output_file_header env
             ++ String.concat "" (map (render_line config) domains_combined)))
    (backup_files w) (dnsmasq_restarts w).

Definition restart_dnsmasq_service (w : World) : World :=
  mkWorld (output_file w) (backup_files w) (S (dnsmasq_restarts w)).

Definition generate (config : Dnsgate_Config) (env : Env) (w : World)
  : result unit * World :=
  match final_rule_set config env with
  | Raise e => (Raise e, w)
  | Ok domains_combined =>
      let w := if backup config then backup_file_if_exists w else w in
      match domains_combined with
      | [] => (Raise (SystemExit 1), w)
      | _ :: _ =>
          let w := write_output config env domains_combined w in
          let w :=
            if negb (no_restart_dnsmasq config) && negb (Mode_eqb (mode config) hosts)
            then restart_dnsmasq_service w else w in
          (Ok tt, w)
      end
  end.

End Generate.

(** ** Reference instances of the collaborators *)

(** The [idna] codec on a name of ASCII bytes: every label but the last
    has 1 to 63 bytes, the last has at most 63, and the name is returned
    unchanged.  Names with a byte above 127 take the codec's slow path,
    which this instance does not follow: it rejects them. *)
Definition is_ascii (c : ascii) : bool := Nat.ltb (nat_of_ascii c) 128.

Definition all_ascii (s : bytes) : bool :=
  forallb is_ascii (list_ascii_of_string s).

Fixpoint idna_labels_ok (labels : list bytes) : bool :=
  match labels with
  | [] => true
  | [last] => Nat.ltb (String.length last) 64
  | label :: rest =>
      Nat.ltb 0 (String.length label) && Nat.ltb (String.length label) 64
      && idna_labels_ok rest
  end.

Definition idna_ascii (hostname : bytes) : option bytes :=
  if all_ascii hostname && idna_labels_ok (split "." hostname)
  then Some hostname else None.

(** Modelled from the spec: the extractor of the tldextract library, which
    is not under src/ ("determine the longest matching public suffix from
    the dataset, take one additional label to its left as the registrable
    domain").  [labels] is what is left of the name, [before] the labels
    already passed, nearest first.  A name with no public suffix keeps its
    last label as domain and has an empty suffix. *)
Fixpoint tld_scan (public_suffixes : list bytes) (before labels : list bytes)
  : ExtractResult :=
  match labels with
  | [] => mkExtractResult (join "." (rev (tl before))) (hd "" before) ""
  | label :: rest =>
      if mem (join "." labels) public_suffixes
      then mkExtractResult (join "." (rev (tl before))) (hd "" before)
             (join "." labels)
      else tld_scan public_suffixes (label :: before) rest
  end.

Definition tld_extract_with (public_suffixes : list bytes) (d : bytes)
  : ExtractResult :=
  tld_scan public_suffixes [] (split "." d).

Definition sample_suffixes : list bytes := ["com"; "org"; "net"; "uk"; "co.uk"].

Definition sample_tld_extract : bytes -> ExtractResult :=
  tld_extract_with sample_suffixes.

(** ** Vocabulary of the properties *)

(** [a <= b], that is [not (b < a)]. *)
Definition labels_le (a b : list bytes) : Prop := labels_lt b a = false.

(** The sort key of a domain: its labels, top-level label first. *)
Definition reversed_labels (d : bytes) : list bytes := rev (split "." d).

Abbreviation count := (count_occ string_dec).

(** How many values of [index] make [domain_to_check in domains_orig] true. *)
Definition hits_at (domains_orig : DomainSet) (domain_parts_msb : list bytes)
    (indices : list nat) : nat :=
  List.length
    (filter (fun index => mem (join "." (firstn index domain_parts_msb)) domains_orig)
       indices).

Definition hits (domains_orig : DomainSet) (d : bytes) : nat :=
  let domain_parts_msb := rev (split "." d) in
  hits_at domains_orig domain_parts_msb (seq 0 (List.length domain_parts_msb)).

(** The values of [domain_to_check] for one domain. *)
Definition domains_to_check (d : bytes) : list bytes :=
  let domain_parts_msb := rev (split "." d) in
  map (fun index => join "." (firstn index domain_parts_msb))
    (seq 0 (List.length domain_parts_msb)).

(** [anc] is a proper ancestor of [d]: the labels of [anc] are a proper
    suffix of the labels of [d]. *)
Definition is_proper_ancestor (anc d : bytes) : bool :=
  let a := reversed_labels anc in
  let l := reversed_labels d in
  Nat.ltb (List.length a) (List.length l)
  && if list_eq_dec string_dec (firstn (List.length a) l) a then true else false.

(** ** Sample runs *)

(** A run in dnsmasq mode with block_at_psl: one remote source, a
    whitelist and a local blacklist. *)
Definition sample_config : Dnsgate_Config :=
  mkConfig dnsmasq true None true false ["http://lists.example/hosts"].

Definition sample_env : Env :=
  mkEnv (Some "lwn.net")
        (Some ("tracker.example.org" ++ String LF "# biz"))
        (fun url =>
           if String.eqb url "http://lists.example/hosts"
           then Some ("# ad servers" ++ String LF "0.0.0.0 ads.example.com"
                        ++ String LF "0.0.0.0  www.ads.example.com"
                        ++ String LF "127.0.0.1 a.b.lwn.net" ++ String LF "")
           else None)
        ("# generated" ++ String LF "").

Definition sample_world : World := mkWorld (Some "old") [] 0.

Definition hosts_psl_config : Dnsgate_Config :=
  mkConfig hosts true None true false ["http://lists.example/hosts"].

Definition all_whitelisted_env : Env :=
  mkEnv (Some ("ads.example.com" ++ String LF "www.ads.example.com"
                 ++ String LF "a.b.lwn.net"))
        None (url_bytes sample_env) (output_file_header sample_env).

Definition plain_config : Dnsgate_Config :=
  mkConfig dnsmasq false None true false ["http://lists.example/hosts"].

(** A run whose only source yields [remote]. *)
Definition one_source_env (whitelist blacklist : option bytes) (remote : bytes)
  : Env :=
  mkEnv whitelist blacklist
    (fun url =>
       if String.eqb url "http://lists.example/hosts" then Some remote else None)
    ("# generated" ++ String LF "").

(** ** Local rule files: [write_unique_line], [append_to_local_rule_file]

    The two functions open the file as text.  The model keeps the bytes of
    the file: for a file in the encoding of the locale, comparing decoded
    lines is comparing their bytes. *)

(** Iterating over a file opened as text: a line ends at LF, CR or CR LF,
    each of which is read as LF, and keeps its line end. *)
Fixpoint file_lines (content : bytes) : list bytes :=
  match content with
  | EmptyString => []
  | String c s' =>
      if Ascii.eqb c LF then String LF "" :: file_lines s'
      else if Ascii.eqb c CR then
        match s' with
        | String c2 s'' =>
            if Ascii.eqb c2 LF then String LF "" :: file_lines s''
            else String LF "" :: file_lines s'
        | EmptyString => [String LF ""]
        end
      else match file_lines s' with
           | [] => [String c EmptyString]
           | h :: t => String c h :: t
           end
  end.

(** The file is [None] when it does not exist.  [line not in fh] reads the
    file to its end, so the write that follows appends. *)
Definition write_unique_line (line : bytes) (file_to_write : option bytes)
  : option bytes :=
  match file_to_write with
  | Some content =>
      if existsb (String.eqb line) (file_lines content)
      then Some content
      else Some (content ++ line)
  | None => Some line
  end.

(** [idn] stands for its UTF-8 bytes.  The result is [None] when the codec
    raises, and the new state of the rule file otherwise. *)
Definition append_to_local_rule_file (idna : bytes -> option bytes)
    (rule_file : option bytes) (idn : bytes) : option (option bytes) :=
  match idna idn with
  | Some hostname =>
      let line := hostname ++ String LF "" in
      Some (write_unique_line line rule_file)
  | None => None
  end.

(** ** The dnsmasq configuration file: [comment_out_line_in_file],
    [uncomment_line_in_file]

    The two functions read the file as text and work on Python strings.  A
    string is a list of characters of any alphabet with an equality test,
    the whitespace test of [str.strip] and the character [#].  A file is
    the list of its lines, as [read().splitlines()] returns them; what a
    function writes is the list [newlines], which it joins with LF. *)

Section TextFile.

Variable char : Type.
Variable char_eqb : char -> char -> bool.
Variable char_isspace : char -> bool.
Variable hash : char.

Fixpoint startswith (line prefix : list char) : bool :=
  match prefix, line with
  | [], _ => true
  | _ :: _, [] => false
  | p :: prefix', c :: line' => char_eqb c p && startswith line' prefix'
  end.

(** [needle in line]. *)
Fixpoint occurs_in (needle line : list char) : bool :=
  startswith line needle
  || match line with
     | [] => false
     | _ :: line' => occurs_in needle line'
     end.

Fixpoint text_eqb (a b : list char) : bool :=
  match a, b with
  | [], [] => true
  | x :: a', y :: b' => char_eqb x y && text_eqb a' b'
  | _, _ => false
  end.

Fixpoint lines_eqb (a b : list (list char)) : bool :=
  match a, b with
  | [], [] => true
  | x :: a', y :: b' => text_eqb x y && lines_eqb a' b'
  | _, _ => false
  end.

Fixpoint text_lstrip (s : list char) : list char :=
  match s with
  | [] => []
  | c :: s' => if char_isspace c then text_lstrip s' else s
  end.

Fixpoint text_rstrip (s : list char) : list char :=
  match s with
  | [] => []
  | c :: s' =>
      match text_rstrip s' with
      | [] => if char_isspace c then [] else [c]
      | r => c :: r
      end
  end.

Definition text_strip (s : list char) : list char := text_rstrip (text_lstrip s).

(** The body of the loop of [comment_out_line_in_file]: the line appended
    to [newlines], and whether [commented] is set. *)
Definition comment_out_line (line_to_match line : list char)
  : list char * bool :=
  if occurs_in line_to_match line then
    let line_stripped := text_strip line in
    if startswith line_stripped [hash] then (line, true)
    else if text_eqb line_stripped line then (hash :: line, true)
    else (line, false)
  else (line, false).

(** The body of the loop of [uncomment_line_in_file]; [line[1:]] is [tl]. *)
Definition uncomment_line (line_to_match line : list char)
  : list char * bool :=
  if occurs_in line_to_match line then
    let line_stripped := text_strip line in
    if startswith line_stripped [hash] then (tl line, true)
    else if text_eqb line_stripped line then (line, true)
    else (line, false)
  else (line, false).

(** What a function of the two does with the lines it read: the lines it
    writes, if it writes, and the value it returns. *)
Definition rewrite_lines (body : list char -> list char * bool)
    (lines : list (list char)) : option (list (list char)) * bool :=
  let newlines := map (fun line => fst (body line)) lines in
  let flagged := existsb (fun line => snd (body line)) lines in
  if negb (lines_eqb lines newlines) then (Some newlines, true)
  else if flagged then (None, true)
  else (None, false).

Definition comment_out_line_in_file (lines : list (list char))
    (line_to_match : list char) : option (list (list char)) * bool :=
  rewrite_lines (comment_out_line line_to_match) lines.

Definition uncomment_line_in_file (lines : list (list char))
    (line_to_match : list char) : option (list (list char)) * bool :=
  rewrite_lines (uncomment_line line_to_match) lines.

(** The lines of the file after a call that read [lines]. *)
Definition lines_after (lines : list (list char))
    (outcome : option (list (list char)) * bool) : list (list char) :=
  match fst outcome with
  | Some newlines => newlines
  | None => lines
  end.

End TextFile.

Arguments startswith {char} char_eqb line prefix.
Arguments occurs_in {char} char_eqb needle line.
Arguments text_eqb {char} char_eqb a b.
Arguments lines_eqb {char} char_eqb a b.
Arguments text_lstrip {char} char_isspace s.
Arguments text_rstrip {char} char_isspace s.
Arguments text_strip {char} char_isspace s.
Arguments comment_out_line {char} char_eqb char_isspace hash line_to_match line.
Arguments uncomment_line {char} char_eqb char_isspace hash line_to_match line.
Arguments rewrite_lines {char} char_eqb body lines.
Arguments comment_out_line_in_file {char} char_eqb char_isspace hash lines
  line_to_match.
Arguments uncomment_line_in_file {char} char_eqb char_isspace hash lines
  line_to_match.
Arguments lines_after {char} lines outcome.

(** A dnsmasq configuration file and the line [enable] and [disable] look
    for, over the ASCII alphabet. *)
Definition sample_dnsmasq_conf : list (list ascii) :=
  map list_ascii_of_string
    ["# Configuration file for dnsmasq."; "conf-dir=/etc/dnsmasq.d";
     " conf-dir=/etc/dnsmasq.d"; "no-resolv"].

Definition sample_conf_dir_line : list ascii :=
  list_ascii_of_string "conf-dir=/etc/dnsmasq.d".


(** ** The commands [blacklist] and [whitelist]

    Each appends its arguments to a local rule file, one call of
    [append_to_local_rule_file] per argument, and then invokes [generate].
    When the codec raises on an argument the command ends there: the lines
    appended before stay in the file and [generate] is not run. *)

Fixpoint append_all (idna : bytes -> option bytes) (rule_file : option bytes)
    (domains : list bytes) : option bytes * bool :=
  match domains with
  | [] => (rule_file, true)
  | idn :: rest =>
      match append_to_local_rule_file idna rule_file idn with
      | Some rule_file' => append_all idna rule_file' rest
      | None => (rule_file, false)
      end
  end.

(** The outcome is the pair of what [generate] did, if it ran, and of what
    the next run reads. *)
Definition blacklist (idna : bytes -> option bytes)
    (TLD_EXTRACT : bytes -> ExtractResult)
    (config : Dnsgate_Config) (env : Env) (w : World) (domains : list bytes)
  : option (result unit * World) * Env :=
  let (rule_file, completed) := append_all idna (blacklist_file env) domains in
  let env' :=
    mkEnv (whitelist_file env) rule_file (url_bytes env) (output_file_header env) in
  (if completed then Some (generate idna TLD_EXTRACT config env' w) else None, env').

Definition whitelist (idna : bytes -> option bytes)
    (TLD_EXTRACT : bytes -> ExtractResult)
    (config : Dnsgate_Config) (env : Env) (w : World) (domains : list bytes)
  : option (result unit * World) * Env :=
  let (rule_file, completed) := append_all idna (whitelist_file env) domains in
  let env' :=
    mkEnv rule_file (blacklist_file env) (url_bytes env) (output_file_header env) in
  (if completed then Some (generate idna TLD_EXTRACT config env' w) else None, env').

(** ** More vocabulary *)

(** Some byte of [s] satisfies [p]. *)
Fixpoint any_byte (p : ascii -> bool) (s : bytes) : bool :=
  match s with
  | EmptyString => false
  | String c s' => p c || any_byte p s'
  end.

(** No label of [d] is empty: no leading, trailing or doubled dot. *)
Definition labels_nonempty (d : bytes) : bool := forallb nonempty (split "." d).

(** The content is empty or its last byte is LF. *)
Fixpoint lf_terminated (content : bytes) : bool :=
  match content with
  | EmptyString => true
  | String c s' =>
      match s' with
      | EmptyString => Ascii.eqb c LF
      | String _ _ => lf_terminated s'
      end
  end.

Definition no_newline (s : bytes) : bool :=
  negb (contains LF s) && negb (contains CR s).

(** A domain as the native extractor returns it unchanged. *)
Definition clean_domain (d : bytes) : bool :=
  nonempty d && negb (any_byte isspace d) && negb (contains "#" d)
  && labels_nonempty d.

(** A line of the file as text is a line of [splitlines] followed by LF, or
    the last, unterminated line. *)
Definition line_read_as (read bare : bytes) : Prop :=
  read = bare ++ String LF "" \/ (read = bare /\ contains LF bare = false).

(** The set the root-reduction branch of [reconcile] hands on to the
    last whitelist subtraction. *)
Definition reduced_set (TLD_EXTRACT : bytes -> ExtractResult)
    (B W : DomainSet) : DomainSet :=
  readd_subdomains TLD_EXTRACT B W
    match W with
    | [] => strip_to_psl TLD_EXTRACT B
    | _ :: _ =>
        unblock_whitelisted_psl TLD_EXTRACT W (diff (strip_to_psl TLD_EXTRACT B) W)
    end.

(** The domains a local rule file yields, none when it is missing. *)
Definition rule_file_domains (rule_file : option bytes) : DomainSet :=
  match rule_file with
  | None => []
  | Some content => extract_domain_set_from_dnsgate_format_file content
  end.

(** The rule file is missing, empty, or ends in LF. *)
Definition rule_file_terminated (rule_file : option bytes) : bool :=
  match rule_file with
  | None => true
  | Some content => lf_terminated content
  end.

(** The top-level label of a domain. *)
Definition tld (d : bytes) : bytes := hd "" (reversed_labels d).

(** * Properties *)

(** ** The model at work *)

Example hosts_two_lines :
  extract_domain_set_from_hosts_format_bytes
    ("0.0.0.0 ads.example.com" ++ String LF "0.0.0.0 tracker.example.com"
       ++ String LF "")
  = ["ads.example.com"; "tracker.example.com"].
Proof. vm_compute. reflexivity. Qed.

Example psl_ads : extract_psl_domain sample_tld_extract "ads.example.com" = "example.com".
Proof. reflexivity. Qed.

Example psl_couk : extract_psl_domain sample_tld_extract "a.b.example.co.uk" = "example.co.uk".
Proof. reflexivity. Qed.

(** ** Bytes *)

Lemma split_by_not_nil (p : ascii -> bool) (s : bytes) : split_by p s <> [].
Proof.
  destruct s as [|c s]; simpl; [discriminate|].
  destruct (p c); [discriminate|].
  destruct (split_by p s); discriminate.
Qed.

(** [sep.join(s.split(sep)) == s]. *)
Lemma join_split (sep : ascii) (s : bytes) :
  join (String sep "") (split sep s) = s.
Proof.
  unfold split. induction s as [|c s IH]; simpl; [reflexivity|].
  destruct (split_by (fun c => Ascii.eqb c sep) s) as [|h t] eqn:S;
    [now apply split_by_not_nil in S|].
  rewrite <- IH. destruct (Ascii.eqb c sep) eqn:E.
  - apply Ascii.eqb_eq in E. now subst c.
  - now destruct t.
Qed.

Lemma mem_In (d : bytes) (s : DomainSet) : mem d s = true <-> In d s.
Proof.
  unfold mem. split.
  - apply set_mem_correct1.
  - apply set_mem_correct2.
Qed.

Lemma mem_not_In (d : bytes) (s : DomainSet) : mem d s = false <-> ~ In d s.
Proof.
  rewrite <- mem_In. destruct (mem d s); split; congruence.
Qed.

(** ** The order [list.sort()] uses *)

Lemma ascii_compare_refl (a : ascii) : Ascii.compare a a = Eq.
Proof. unfold Ascii.compare. apply N.compare_refl. Qed.

Lemma ascii_compare_trans (a b c : ascii) (r : comparison) :
  Ascii.compare a b = r -> Ascii.compare b c = r -> Ascii.compare a c = r.
Proof.
  unfold Ascii.compare. destruct r.
  - rewrite !N.compare_eq_iff. congruence.
  - rewrite !N.compare_lt_iff. apply N.lt_trans.
  - rewrite !N.compare_gt_iff. intros H1 H2. now apply N.lt_trans with (N_of_ascii b).
Qed.

Lemma string_compare_refl (s : bytes) : String.compare s s = Eq.
Proof. induction s; simpl; [reflexivity|]. now rewrite ascii_compare_refl. Qed.

Lemma string_compare_Eq (s t : bytes) : String.compare s t = Eq <-> s = t.
Proof.
  split; [apply String.compare_eq_iff|]. intros ->. apply string_compare_refl.
Qed.

Lemma string_compare_opp (s t : bytes) :
  String.compare t s = CompOpp (String.compare s t).
Proof. apply String.compare_antisym. Qed.

Lemma string_compare_trans (s t u : bytes) (r : comparison) :
  String.compare s t = r -> String.compare t u = r -> String.compare s u = r.
Proof.
  revert t u. induction s as [|a s IH]; intros [|b t] [|c u]; simpl;
    try congruence.
  destruct (Ascii.compare a b) eqn:Hab.
  - apply Ascii.compare_eq_iff in Hab. subst b.
    destruct (Ascii.compare a c); [apply IH | congruence | congruence].
  - intros <-. destruct (Ascii.compare b c) eqn:Hbc; try discriminate.
    + apply Ascii.compare_eq_iff in Hbc. subst c. now rewrite Hab.
    + now rewrite (ascii_compare_trans _ _ _ _ Hab Hbc).
  - intros <-. destruct (Ascii.compare b c) eqn:Hbc; try discriminate.
    + apply Ascii.compare_eq_iff in Hbc. subst c. now rewrite Hab.
    + now rewrite (ascii_compare_trans _ _ _ _ Hab Hbc).
Qed.

Lemma labels_compare_opp (a b : list bytes) :
  labels_compare b a = CompOpp (labels_compare a b).
Proof.
  apply list_compare_antisym;
    [apply string_compare_Eq | apply string_compare_opp].
Qed.

Lemma labels_compare_trans (a b c : list bytes) (r : comparison) :
  labels_compare a b = r -> labels_compare b c = r -> labels_compare a c = r.
Proof.
  apply list_compare_trans.
  - apply string_compare_Eq.
  - intros x y z r'. apply string_compare_trans.
  - apply string_compare_opp.
Qed.

Lemma labels_compare_Eq (a b : list bytes) : labels_compare a b = Eq <-> a = b.
Proof. apply list_compare_refl, string_compare_Eq. Qed.

Lemma labels_le_iff (a b : list bytes) : labels_le a b <-> labels_compare a b <> Gt.
Proof.
  unfold labels_le, labels_lt. rewrite (labels_compare_opp a b).
  destruct (labels_compare a b); simpl; split; congruence.
Qed.

Lemma labels_lt_le (a b : list bytes) : labels_lt a b = true -> labels_le a b.
Proof.
  intros H. apply labels_le_iff. unfold labels_lt in H.
  destruct (labels_compare a b); congruence.
Qed.

Lemma labels_le_trans (a b c : list bytes) :
  labels_le a b -> labels_le b c -> labels_le a c.
Proof.
  rewrite !labels_le_iff. intros Hab Hbc.
  destruct (labels_compare a b) eqn:E1; [| |congruence].
  - apply labels_compare_Eq in E1. now subst b.
  - destruct (labels_compare b c) eqn:E2; [| |congruence].
    + apply labels_compare_Eq in E2. subst c. congruence.
    + rewrite (labels_compare_trans _ _ _ _ E1 E2). congruence.
Qed.

Lemma labels_le_antisym (a b : list bytes) : labels_le a b -> labels_le b a -> a = b.
Proof.
  rewrite !labels_le_iff, (labels_compare_opp a b). intros H1 H2.
  apply labels_compare_Eq. destruct (labels_compare a b); simpl in *; congruence.
Qed.

(** ** Sorting *)

Lemma sort_insert_perm (x : list bytes) (l : list (list bytes)) :
  Permutation (sort_insert x l) (x :: l).
Proof.
  induction l as [|y l IH]; simpl; [reflexivity|].
  destruct (labels_lt y x); [|reflexivity].
  rewrite IH. apply perm_swap.
Qed.

Lemma list_sort_perm (l : list (list bytes)) : Permutation (list_sort l) l.
Proof.
  induction l as [|x l IH]; simpl; [reflexivity|].
  rewrite sort_insert_perm. now constructor.
Qed.

Lemma sort_insert_sorted (x : list bytes) (l : list (list bytes)) :
  StronglySorted labels_le l -> StronglySorted labels_le (sort_insert x l).
Proof.
  induction 1 as [|y l Hl IH Hy]; simpl.
  - repeat constructor.
  - destruct (labels_lt y x) eqn:E.
    + constructor; [exact IH|].
      apply Forall_forall. intros z Hz.
      apply (Permutation_in _ (sort_insert_perm x l)) in Hz.
      destruct Hz as [<-|Hz]; [now apply labels_lt_le|].
      rewrite Forall_forall in Hy. now apply Hy.
    + constructor; [now constructor|].
      constructor; [exact E|].
      eapply Forall_impl; [|exact Hy].
      intros z Hz. now apply labels_le_trans with y.
Qed.

Lemma list_sort_sorted (l : list (list bytes)) :
  StronglySorted labels_le (list_sort l).
Proof.
  induction l; simpl; [constructor | now apply sort_insert_sorted].
Qed.

(** ** Grouping *)

Lemma join_reversed_labels (d : bytes) : join "." (rev (reversed_labels d)) = d.
Proof. unfold reversed_labels. rewrite rev_involutive. apply join_split. Qed.

Lemma group_by_tld_perm (domains : DomainSet) :
  Permutation (group_by_tld domains) domains.
Proof.
  unfold group_by_tld.
  change (fun d => rev (split "." d)) with reversed_labels.
  rewrite (Permutation_map (fun r => join "." (rev r))
             (list_sort_perm (map reversed_labels domains))), map_map.
  erewrite map_ext; [rewrite map_id; reflexivity|].
  intros d. apply join_reversed_labels.
Qed.

Lemma group_by_tld_sorted (domains : DomainSet) :
  StronglySorted labels_le (map reversed_labels (group_by_tld domains)).
Proof.
  unfold group_by_tld.
  change (fun d => rev (split "." d)) with reversed_labels.
  rewrite map_map.
  erewrite map_ext_in; [rewrite map_id; apply list_sort_sorted|].
  intros r Hr. simpl.
  apply (Permutation_in _ (list_sort_perm (map reversed_labels domains))),
    in_map_iff in Hr.
  destruct Hr as [d [<- _]]. now rewrite join_reversed_labels.
Qed.

(** C7: [group_by_tld] returns a permutation of its input (the same
    domains, each as often as the input holds it, so each once for a set);
    the reversed-label keys of the result are in ascending lexicographic
    order, labels being compared byte by byte; and the set of
    ads.example.com and tracker.example.com comes out as ads.example.com,
    tracker.example.com, whichever way the set is iterated. *)
Theorem group_by_tld_sorted_permutation :
  (forall domains : DomainSet,
      Permutation (group_by_tld domains) domains
      /\ StronglySorted labels_le (map reversed_labels (group_by_tld domains)))
  /\ group_by_tld ["ads.example.com"; "tracker.example.com"]
     = ["ads.example.com"; "tracker.example.com"]
  /\ group_by_tld ["tracker.example.com"; "ads.example.com"]
     = ["ads.example.com"; "tracker.example.com"].
Proof.
  split; [|split; reflexivity].
  intros domains. split; [apply group_by_tld_perm | apply group_by_tld_sorted].
Qed.

(** A sorted list is determined by its elements: any other way of sorting
    with the same comparison gives the list [group_by_tld] gives. *)
Lemma sorted_permutation_unique (l l' : list (list bytes)) :
  StronglySorted labels_le l -> StronglySorted labels_le l' ->
  Permutation l l' -> l = l'.
Proof.
  intros Hl. revert l'. induction Hl as [|x l Hl IH Hx]; intros l' Hl' Hp.
  - now apply Permutation_nil in Hp.
  - destruct Hl' as [|y l' Hl' Hy].
    + now apply Permutation_sym, Permutation_nil in Hp.
    + assert (x = y) as <-.
      { apply labels_le_antisym.
        - assert (In y (x :: l)) as [->|Hin]
              by (eapply Permutation_in; [symmetry; exact Hp | now left]).
          + apply labels_le_iff. now rewrite (proj2 (labels_compare_Eq y y) eq_refl).
          + rewrite Forall_forall in Hx. now apply Hx.
        - assert (In x (y :: l')) as [->|Hin]
              by (eapply Permutation_in; [exact Hp | now left]).
          + apply labels_le_iff. now rewrite (proj2 (labels_compare_Eq x x) eq_refl).
          + rewrite Forall_forall in Hy. now apply Hy. }
      f_equal. apply IH; [exact Hl'|]. now apply Permutation_cons_inv in Hp.
Qed.

(** ** Pruning *)

Lemma hits_domains_to_check (domains_orig : DomainSet) (d : bytes) :
  hits domains_orig d
  = List.length (filter (fun c => mem c domains_orig) (domains_to_check d)).
Proof.
  unfold hits, hits_at, domains_to_check.
  induction (seq 0 (List.length (rev (split "." d)))) as [|i l IH]; simpl;
    [reflexivity|].
  destruct (mem _ domains_orig); simpl; now rewrite IH.
Qed.

Lemma remove_count (d : bytes) (D D' : DomainSet) :
  remove d D = Ok D' ->
  forall x, count D x = count D' x + (if string_dec x d then 1 else 0).
Proof.
  unfold remove, mem. destruct (set_mem string_dec d D) eqn:M; [|discriminate].
  intros [= <-] x. induction D as [|a D IH]; simpl in *; [discriminate|].
  destruct (string_dec d a) as [->|Hda].
  - destruct (string_dec a x), (string_dec x a); subst; try congruence; lia.
  - simpl. rewrite (IH M). destruct (string_dec a x); lia.
Qed.

Lemma remove_defined (d : bytes) (D : DomainSet) :
  1 <= count D d -> exists D', remove d D = Ok D'.
Proof.
  intros H. unfold remove.
  assert (In d D) as Hin by (apply (count_occ_In string_dec); lia).
  apply mem_In in Hin. rewrite Hin. eauto.
Qed.

Lemma prune_indices_count orig d parts indices :
  forall D D', prune_indices orig d parts indices D = Ok D' ->
  forall x, count D x
            = count D' x + (if string_dec x d then hits_at orig parts indices else 0).
Proof.
  unfold hits_at. induction indices as [|i indices IH]; simpl; intros D D' H x.
  - injection H as <-. destruct (string_dec x d); lia.
  - destruct (mem (join "." (firstn i parts)) orig).
    + destruct (remove d D) as [D1|e] eqn:R; simpl in H; [|discriminate].
      rewrite (remove_count _ _ _ R x), (IH _ _ H x). simpl.
      destruct (string_dec x d); lia.
    + apply (IH _ _ H).
Qed.

Lemma prune_indices_defined orig d parts indices :
  forall D, hits_at orig parts indices <= count D d ->
  exists D', prune_indices orig d parts indices D = Ok D'.
Proof.
  unfold hits_at. induction indices as [|i indices IH]; simpl; intros D H.
  - eauto.
  - destruct (mem (join "." (firstn i parts)) orig); [|now apply IH].
    simpl in H. destruct (remove_defined d D) as [D1 R]; [lia|].
    rewrite R. simpl. apply IH.
    pose proof (remove_count _ _ _ R d) as C.
    destruct (string_dec d d); [lia|congruence].
Qed.

Lemma prune_indices_undefined orig d parts indices :
  forall D e, prune_indices orig d parts indices D = Raise e ->
  e = KeyError d /\ count D d < hits_at orig parts indices.
Proof.
  unfold hits_at. induction indices as [|i indices IH]; simpl; intros D e H.
  - discriminate.
  - destruct (mem (join "." (firstn i parts)) orig).
    + unfold remove in *. destruct (mem d D) eqn:M; simpl in *.
      * destruct (IH _ _ H) as [-> Hlt]. split; [reflexivity|].
        assert (R : remove d D = Ok (set_remove string_dec d D))
          by (unfold remove; now rewrite M).
        pose proof (remove_count _ _ _ R d) as C.
        destruct (string_dec d d); [lia|congruence].
      * injection H as <-. split; [reflexivity|].
        apply mem_not_In, (count_occ_not_In string_dec) in M. lia.
    + destruct (IH _ _ H) as [-> Hlt]. split; [reflexivity|lia].
Qed.

Lemma prune_loop_count orig todo :
  forall D D', prune_loop orig todo D = Ok D' ->
  forall x, count D x = count D' x + count todo x * hits orig x.
Proof.
  induction todo as [|d todo IH]; simpl; intros D D' H x.
  - injection H as <-. lia.
  - destruct (prune_domain orig d D) as [D1|e] eqn:P; simpl in H; [|discriminate].
    unfold prune_domain in P.
    rewrite (prune_indices_count _ _ _ _ _ _ P x), (IH _ _ H x).
    fold (hits orig d).
    destruct (string_dec d x) as [E|E]; destruct (string_dec x d) as [E'|E'];
      try congruence; try subst x; nia.
Qed.

Lemma prune_loop_defined orig todo :
  forall D, (forall x, count todo x * hits orig x <= count D x) ->
  exists D', prune_loop orig todo D = Ok D'.
Proof.
  induction todo as [|d todo IH]; simpl; intros D H; [eauto|].
  destruct (prune_indices_defined orig d (rev (split "." d))
              (seq 0 (List.length (rev (split "." d)))) D) as [D1 P].
  { specialize (H d). fold (hits orig d).
    destruct (string_dec d d); [lia|congruence]. }
  unfold prune_domain. rewrite P. simpl. apply IH. intros x.
  specialize (H x). rewrite (prune_indices_count _ _ _ _ _ _ P x) in H.
  fold (hits orig d) in H.
  destruct (string_dec d x) as [E|E]; destruct (string_dec x d) as [E'|E'];
    try congruence; try subst x; nia.
Qed.

(** The pass judges every domain against the snapshot [domains_orig] alone:
    whatever was removed before, a domain of the input survives exactly
    when none of its checks hits the input. *)
Lemma prune_redundant_rules_spec (A T : DomainSet) :
  prune_redundant_rules A = Ok T ->
  forall d, In d T <-> In d A /\ hits A d = 0.
Proof.
  unfold prune_redundant_rules. intros H d.
  pose proof (prune_loop_count _ _ _ _ H d) as C.
  rewrite !(count_occ_In string_dec). split.
  - intros HT. split; [lia|]. destruct (hits A d); [reflexivity|nia].
  - intros [HS Hh]. rewrite Hh in C. lia.
Qed.

(** The pass completes exactly when no domain is hit twice. *)
Lemma prune_redundant_rules_defined (A : DomainSet) :
  (exists T, prune_redundant_rules A = Ok T)
  <-> (forall d, In d A -> hits A d <= 1).
Proof.
  unfold prune_redundant_rules. split.
  - intros [T H] d Hd. pose proof (prune_loop_count _ _ _ _ H d) as C.
    apply (count_occ_In string_dec) in Hd. nia.
  - intros H. apply prune_loop_defined. intros x.
    destruct (in_dec string_dec x A) as [Hin|Hout].
    + specialize (H x Hin). nia.
    + apply (count_occ_not_In string_dec) in Hout. rewrite Hout. lia.
Qed.

Lemma prune_loop_raises orig todo :
  forall D e, prune_loop orig todo D = Raise e -> exists d, e = KeyError d /\ In d todo.
Proof.
  induction todo as [|d todo IH]; simpl; intros D e H; [discriminate|].
  destruct (prune_domain orig d D) as [D1|e1] eqn:P; simpl in H.
  - destruct (IH _ _ H) as [k [-> Hk]]. eauto.
  - injection H as <-. apply prune_indices_undefined in P. destruct P as [-> _]. eauto.
Qed.

Lemma hits_at_mono (A T : DomainSet) parts indices :
  (forall c, In c T -> In c A) ->
  hits_at T parts indices <= hits_at A parts indices.
Proof.
  intros Hsub. unfold hits_at. induction indices as [|i indices IH]; simpl; [lia|].
  destruct (mem _ T) eqn:MT.
  - apply mem_In, Hsub, mem_In in MT. rewrite MT. simpl. lia.
  - destruct (mem _ A); simpl; lia.
Qed.



Lemma hits_ext (A A' : DomainSet) (d : bytes) :
  (forall c, In c A <-> In c A') -> hits A d = hits A' d.
Proof.
  intros H. unfold hits. apply Nat.le_antisymm; apply hits_at_mono;
    intros c; apply H.
Qed.

(** The outcome does not depend on the order in which the set is iterated:
    two orders of one set both raise, or both return, and then the same
    set. *)
Lemma prune_order_independent (A A' : DomainSet) :
  Permutation A A' ->
  match prune_redundant_rules A, prune_redundant_rules A' with
  | Ok T, Ok T' => Permutation T T'
  | Raise (KeyError _), Raise (KeyError _) => True
  | _, _ => False
  end.
Proof.
  intros HP.
  assert (Hin : forall c, In c A <-> In c A')
    by (intros c; split; apply Permutation_in; [exact HP | now symmetry]).
  destruct (prune_redundant_rules A) as [T|e] eqn:P;
    destruct (prune_redundant_rules A') as [T'|e'] eqn:P'.
  - apply (Permutation_count_occ string_dec). intros x.
    pose proof (prune_loop_count _ _ _ _ P x) as C.
    pose proof (prune_loop_count _ _ _ _ P' x) as C'.
    rewrite <- (hits_ext A A' x Hin) in C'.
    rewrite (proj1 (Permutation_count_occ string_dec A A') HP x) in C. nia.
  - assert (D : forall d, In d A -> hits A d <= 1)
      by (apply prune_redundant_rules_defined; eauto).
    destruct (proj2 (prune_redundant_rules_defined A')) as [T' E].
    + intros d Hd. rewrite <- (hits_ext A A' d Hin). now apply D, Hin.
    + congruence.
  - assert (D : forall d, In d A' -> hits A' d <= 1)
      by (apply prune_redundant_rules_defined; eauto).
    destruct (proj2 (prune_redundant_rules_defined A)) as [T E].
    + intros d Hd. rewrite (hits_ext A A' d Hin). now apply D, Hin.
    + congruence.
  - apply prune_loop_raises in P, P'.
    destruct P as [k [-> _]], P' as [k' [-> _]]. exact I.
Qed.


Example domains_to_check_subdomain :
  domains_to_check "a.b.example.com" = [""; "com"; "com.example"; "com.example.b"].
Proof. reflexivity. Qed.

(** C2: the pass is not total.  On the set of com, com.com and a.com.com,
    in each of its six iteration orders, the checks of a.com.com hit the
    snapshot twice (com and com.com), the second [domains.remove] finds the
    domain gone, and the pass raises KeyError. *)
Theorem prune_raises_KeyError :
  Forall (fun domains => prune_redundant_rules domains = Raise (KeyError "a.com.com"))
    [ ["com"; "com.com"; "a.com.com"]; ["com"; "a.com.com"; "com.com"];
      ["com.com"; "com"; "a.com.com"]; ["com.com"; "a.com.com"; "com"];
      ["a.com.com"; "com"; "com.com"]; ["a.com.com"; "com.com"; "com"] ].
Proof. repeat constructor. Qed.

(** C3: the pass leaves a covered domain in place.  example.com is a proper
    ancestor of a.b.example.com, yet the set of the two is returned whole,
    in both iteration orders: the checks are joined top-level label first
    (com.example), and that name is not in the set. *)
Theorem prune_keeps_covered_subdomain :
  prune_redundant_rules ["example.com"; "a.b.example.com"]
    = Ok ["example.com"; "a.b.example.com"]
  /\ prune_redundant_rules ["a.b.example.com"; "example.com"]
    = Ok ["a.b.example.com"; "example.com"]
  /\ is_proper_ancestor "example.com" "a.b.example.com" = true
  /\ "example.com" <> "a.b.example.com".
Proof. repeat split; try reflexivity. discriminate. Qed.


Example prune_idempotent_on_tld_rule :
  prune_redundant_rules ["com"; "a.b.example.com"; "example.org"]
    = Ok ["com"; "example.org"]
  /\ prune_redundant_rules ["com"; "example.org"] = Ok ["com"; "example.org"].
Proof. split; reflexivity. Qed.

(** ** Sets *)

Lemma In_add (x d : bytes) (s : DomainSet) : In x (add d s) <-> x = d \/ In x s.
Proof. apply set_add_iff. Qed.

Lemma In_union (x : bytes) (s t : DomainSet) : In x (union s t) <-> In x s \/ In x t.
Proof. apply set_union_iff. Qed.

Lemma In_diff (x : bytes) (s t : DomainSet) : In x (diff s t) <-> In x s /\ ~ In x t.
Proof. apply set_diff_iff. Qed.

(** ** Validation and reduction *)

Section ValidationFacts.

Variable idna : bytes -> option bytes.

Lemma In_validate_domain_list (domains : DomainSet) (d : bytes) :
  In d (validate_domain_list idna domains)
  <-> exists x, In x domains /\ idna x = Some d.
Proof.
  unfold validate_domain_list.
  enough (G : forall acc,
             In d (fold_left
                     (fun valid_domains hostname =>
                        match idna hostname with
                        | Some hostname => add hostname valid_domains
                        | None => valid_domains
                        end) domains acc)
             <-> In d acc \/ exists x, In x domains /\ idna x = Some d).
  { rewrite G. simpl. tauto. }
  induction domains as [|h domains IH]; intros acc; simpl.
  - split; [tauto|]. intros [H|[x [[] _]]]. exact H.
  - rewrite IH. destruct (idna h) as [h'|] eqn:E.
    + rewrite In_add. split.
      * intros [[->|H]|[x [Hx Ex]]]; eauto.
      * intros [H|[x [[<-|Hx] Ex]]]; eauto.
        left. left. congruence.
    + split.
      * intros [H|[x [Hx Ex]]]; eauto.
      * intros [H|[x [[<-|Hx] Ex]]]; eauto. congruence.
Qed.

Lemma validate_domain_list_nil : validate_domain_list idna [] = [].
Proof. reflexivity. Qed.

End ValidationFacts.

(** ** Reconciliation *)

Section ReconcileFacts.

Variable TLD_EXTRACT : bytes -> ExtractResult.

Local Abbreviation psl := (extract_psl_domain TLD_EXTRACT).

Lemma In_strip_to_psl (domains : DomainSet) (d : bytes) :
  In d (strip_to_psl TLD_EXTRACT domains) <-> exists y, In y domains /\ d = psl y.
Proof.
  unfold strip_to_psl.
  enough (G : forall acc,
             In d (fold_left
                     (fun domains_stripped line => add (psl line) domains_stripped)
                     domains acc)
             <-> In d acc \/ exists y, In y domains /\ d = psl y).
  { rewrite G. simpl. tauto. }
  induction domains as [|h domains IH]; intros acc; simpl.
  - split; [tauto|]. intros [H|[x [[] _]]]. exact H.
  - rewrite IH, In_add. split.
    + intros [[->|H]|[x [Hx Ex]]]; eauto.
    + intros [H|[x [[<-|Hx] Ex]]]; eauto.
Qed.

Lemma unblock_whitelisted_psl_incl (W C : DomainSet) (x : bytes) :
  In x (unblock_whitelisted_psl TLD_EXTRACT W C) -> In x C.
Proof.
  unfold unblock_whitelisted_psl. revert C.
  induction W as [|w W IH]; intros C; simpl; [tauto|].
  intros H. apply IH in H. destruct (mem (psl w) C); [|exact H].
  now apply set_remove_1 in H.
Qed.

Lemma readd_subdomains_incl (orig W C : DomainSet) (x : bytes) :
  In x (readd_subdomains TLD_EXTRACT orig W C) -> In x C \/ In x orig.
Proof.
  unfold readd_subdomains. revert C.
  induction orig as [|o orig IH]; intros C; simpl; [tauto|].
  intros H. apply IH in H. destruct H as [H|H]; [|tauto].
  destruct (mem o W), (mem o C), (mem (psl o) C); simpl in H; try tauto.
  apply In_add in H. intuition.
Qed.

(** Everything [reconcile] returns was put in: a blacklisted domain, the
    public root of one, or a domain of the local blacklist. *)
Lemma reconcile_provenance (block_at_psl : bool) (mode : Mode)
    (B W L R : DomainSet) (x : bytes) :
  reconcile TLD_EXTRACT block_at_psl mode B W L = Ok R ->
  In x R ->
  In x B \/ (exists y, In y B /\ x = psl y) \/ In x L.
Proof.
  unfold reconcile. intros H Hx.
  assert (G : forall C, In x (match L with
                              | [] => diff C W
                              | _ :: _ => union (diff C W) L
                              end) -> In x C \/ In x L).
  { intros C HC. destruct L.
    - apply In_diff in HC. tauto.
    - apply In_union in HC. rewrite In_diff in HC. tauto. }
  destruct (block_at_psl && negb (Mode_eqb mode hosts)).
  - simpl in H. injection H as <-. apply G in Hx.
    destruct Hx as [Hx|Hx]; [|tauto].
    apply readd_subdomains_incl in Hx. destruct Hx as [Hx|Hx]; [|tauto].
    right. left. apply In_strip_to_psl.
    destruct W; [exact Hx|].
    apply unblock_whitelisted_psl_incl, In_diff in Hx. tauto.
  - destruct (block_at_psl && Mode_eqb mode hosts); simpl in H; [discriminate|].
    injection H as <-. apply G in Hx. tauto.
Qed.

(** C5: the local blacklist wins.  Unless the configuration is the
    rejected one (block_at_psl in hosts mode), [reconcile] returns a set,
    and every domain of the local blacklist is in it, whether or not the
    whitelist holds that domain too: the set returned is the local
    blacklist united to a set from which the whitelist was subtracted
    first. *)
Theorem local_override_wins (block_at_psl : bool) (mode : Mode)
    (B W L : DomainSet) (d : bytes) :
  block_at_psl && Mode_eqb mode hosts = false ->
  In d L ->
  exists C,
    reconcile TLD_EXTRACT block_at_psl mode B W L = Ok (union (diff C W) L)
    /\ In d (union (diff C W) L).
Proof.
  intros Hcfg Hd. unfold reconcile. rewrite Hcfg.
  destruct L as [|l L]; [destruct Hd|].
  destruct (block_at_psl && negb (Mode_eqb mode hosts)); cbn [bind];
    (eexists; split; [reflexivity|]); apply In_union; right; exact Hd.
Qed.

End ReconcileFacts.

Lemma local_override_wins_witness :
  exists C,
    reconcile sample_tld_extract true dnsmasq
      ["ads.example.com"; "example.org"] ["example.org"; "lwn.net"] ["example.org"]
    = Ok (union (diff C ["example.org"; "lwn.net"]) ["example.org"])
    /\ In "example.org" (union (diff C ["example.org"; "lwn.net"]) ["example.org"]).
Proof.
  apply (local_override_wins sample_tld_extract true dnsmasq
           ["ads.example.com"; "example.org"] ["example.org"; "lwn.net"]
           ["example.org"] "example.org").
  - reflexivity.
  - simpl. now left.
Defined.

(** ** The reconciliation example *)

(** C1 (as the program has it): with block_at_psl in dnsmasq mode, the
    blacklist of ads.example.com alone, the whitelist of example.com alone
    and no local blacklist, [reconcile] returns the set of ads.example.com.
    The reduced root example.com is removed by the whitelist subtraction;
    the re-addition pass then finds ads.example.com neither whitelisted nor
    in the reduced set, and its root example.com no longer in the reduced
    set, and adds it back. *)
Theorem reconcile_readds_blacklisted_subdomain
    (TLD_EXTRACT : bytes -> ExtractResult) :
  extract_psl_domain TLD_EXTRACT "ads.example.com" = "example.com" ->
  reconcile TLD_EXTRACT true dnsmasq ["ads.example.com"] ["example.com"] []
  = Ok ["ads.example.com"].
Proof.
  intros Hpsl. unfold reconcile, strip_to_psl, readd_subdomains. simpl.
  rewrite Hpsl. reflexivity.
Qed.

Lemma reconcile_readds_blacklisted_subdomain_witness :
  reconcile sample_tld_extract true dnsmasq ["ads.example.com"] ["example.com"] []
  = Ok ["ads.example.com"].
Proof.
  apply (reconcile_readds_blacklisted_subdomain sample_tld_extract).
  reflexivity.
Defined.

(** The set is not empty, although the public root of ads.example.com is
    the whitelisted example.com. *)
Lemma reconcile_example_not_empty :
  extract_psl_domain sample_tld_extract "ads.example.com" = "example.com"
  /\ reconcile sample_tld_extract true dnsmasq
       ["ads.example.com"] ["example.com"] [] <> Ok [].
Proof. split; [reflexivity | discriminate]. Qed.

(** ** The run *)

Section GenerateFacts.

Variable idna : bytes -> option bytes.
Variable TLD_EXTRACT : bytes -> ExtractResult.

Lemma prune_redundant_rules_nil : prune_redundant_rules [] = Ok [].
Proof. reflexivity. Qed.

Lemma reconcile_rejects_psl_in_hosts_mode (B W L : DomainSet) :
  reconcile TLD_EXTRACT true hosts B W L = Raise (SystemExit 1).
Proof. reflexivity. Qed.

(** C6: both fatal cases end the run with exit status 1 and the output
    file as it was.  With block_at_psl in hosts mode, [generate] quits
    for every input, and nothing at all has changed.  When the
    reconciliation leaves no domain, [generate] quits too, and the output
    file is untouched (a backup copy may have been made). *)
Theorem configuration_error_leaves_output_untouched
    (config : Dnsgate_Config) (env : Env) (w : World) :
  (block_at_psl config = true -> mode config = hosts ->
   generate idna TLD_EXTRACT config env w = (Raise (SystemExit 1), w))
  /\ (reconcile TLD_EXTRACT (block_at_psl config) (mode config)
        (read_sources idna config env) (read_whitelist idna env)
        (read_blacklist env) = Ok [] ->
      fst (generate idna TLD_EXTRACT config env w) = Raise (SystemExit 1)
      /\ output_file (snd (generate idna TLD_EXTRACT config env w))
         = output_file w).
Proof.
  split.
  - intros Hpsl Hmode. unfold generate, final_rule_set.
    rewrite Hpsl, Hmode, reconcile_rejects_psl_in_hosts_mode. reflexivity.
  - intros Hempty. unfold generate, final_rule_set. rewrite Hempty. simpl.
    split; [reflexivity|].
    destruct (backup config); simpl; [|reflexivity].
    unfold backup_file_if_exists.
    destruct (output_file w) eqn:E; simpl; congruence.
Qed.

(** C10: the run fabricates no domain.  Every domain of the final rule
    set is the [idna] encoding of a name that is a validated domain of
    the sources, or the public root [extract_psl_domain] gives of one, or
    a domain of the local blacklist file. *)
Theorem final_rule_set_never_fabricates
    (config : Dnsgate_Config) (env : Env) (final : list bytes) (d : bytes) :
  final_rule_set idna TLD_EXTRACT config env = Ok final ->
  In d final ->
  exists x,
    idna x = Some d
    /\ (In x (read_sources idna config env)
        \/ (exists y, In y (read_sources idna config env)
                      /\ x = extract_psl_domain TLD_EXTRACT y)
        \/ In x (read_blacklist env)).
Proof.
  unfold final_rule_set. intros H Hd.
  destruct (reconcile _ _ _ _ _ _) as [R|e] eqn:HR; simpl in H; [|discriminate].
  destruct (prune_redundant_rules _) as [T|e] eqn:HT; simpl in H; [|discriminate].
  injection H as <-.
  apply (Permutation_in _ (group_by_tld_perm T)) in Hd.
  apply (prune_redundant_rules_spec _ _ HT) in Hd. destruct Hd as [Hd _].
  apply In_validate_domain_list in Hd. destruct Hd as [x [Hx Ex]].
  exists x. split; [exact Ex|].
  exact (reconcile_provenance TLD_EXTRACT _ _ _ _ _ _ x HR Hx).
Qed.

End GenerateFacts.

Example sample_final_rule_set :
  final_rule_set idna_ascii sample_tld_extract sample_config sample_env
  = Ok ["example.com"; "a.b.lwn.net"; "tracker.example.org"].
Proof. vm_compute. reflexivity. Qed.

Lemma final_rule_set_never_fabricates_witness :
  exists x,
    idna_ascii x = Some "example.com"
    /\ (In x (read_sources idna_ascii sample_config sample_env)
        \/ (exists y, In y (read_sources idna_ascii sample_config sample_env)
                      /\ x = extract_psl_domain sample_tld_extract y)
        \/ In x (read_blacklist sample_env)).
Proof.
  apply (final_rule_set_never_fabricates idna_ascii sample_tld_extract
           sample_config sample_env
           ["example.com"; "a.b.lwn.net"; "tracker.example.org"] "example.com").
  - vm_compute. reflexivity.
  - simpl. now left.
Defined.

Lemma configuration_error_leaves_output_untouched_witness :
  generate idna_ascii sample_tld_extract hosts_psl_config sample_env sample_world
    = (Raise (SystemExit 1), sample_world)
  /\ fst (generate idna_ascii sample_tld_extract plain_config all_whitelisted_env
            sample_world) = Raise (SystemExit 1)
  /\ output_file (snd (generate idna_ascii sample_tld_extract plain_config
                         all_whitelisted_env sample_world))
     = output_file sample_world.
Proof.
  split.
  - apply (proj1 (configuration_error_leaves_output_untouched idna_ascii
                    sample_tld_extract hosts_psl_config sample_env sample_world));
      reflexivity.
  - apply (proj2 (configuration_error_leaves_output_untouched idna_ascii
                    sample_tld_extract plain_config all_whitelisted_env
                    sample_world)).
    vm_compute. reflexivity.
Defined.

(** ** Normalization *)

(** [line.split(b' ')[1]] never raises IndexError under [if b' ' in line]. *)
Lemma hosts_field_in_range (sep : ascii) (line : bytes) :
  contains sep line = true -> 2 <= List.length (split sep line).
Proof.
  unfold split. induction line as [|c line IH]; simpl; [discriminate|].
  destruct (Ascii.eqb c sep); simpl.
  - intros _. pose proof (split_by_not_nil (fun c => Ascii.eqb c sep) line) as N.
    destruct (split_by (fun c => Ascii.eqb c sep) line); [congruence|simpl; lia].
  - intros H. specialize (IH H).
    destruct (split_by (fun c => Ascii.eqb c sep) line); simpl in *; lia.
Qed.

Lemma dnsgate_format_lines_keep (lines : list bytes) (acc : DomainSet) (x : bytes) :
  In x acc -> In x (fold_left dnsgate_format_line lines acc).
Proof.
  revert acc. induction lines as [|l lines IH]; intros acc H; simpl; [exact H|].
  apply IH. unfold dnsgate_format_line.
  destruct (Nat.ltb 0 _); [apply In_add; now right | exact H].
Qed.

Lemma dnsgate_format_lines_add (lines : list bytes) (acc : DomainSet) (line : bytes) :
  In line lines ->
  join_nonempty_labels (remove_comments_from_bytes (strip line)) <> "" ->
  In (join_nonempty_labels (remove_comments_from_bytes (strip line)))
     (fold_left dnsgate_format_line lines acc).
Proof.
  revert acc. induction lines as [|l lines IH]; intros acc Hin Hne;
    [destruct Hin|]. destruct Hin as [->|H]; simpl.
  - apply dnsgate_format_lines_keep. unfold dnsgate_format_line.
    destruct (join_nonempty_labels (remove_comments_from_bytes (strip line)));
      [congruence|].
    simpl. apply In_add. now left.
  - now apply IH.
Qed.

(** C8: the hosts-format extractor inserts the empty domain.  A line whose
    second field is a lone dot, or whose second field starts a comment,
    puts the empty byte string in the set; the native-format extractor
    guards the insertion with [len(line) > 0] and rejects the same token.
    The native-format extractor strips the line before it cuts the
    comment, so a domain followed by a comment keeps its trailing blank. *)
Theorem hosts_format_inserts_empty_domain :
  extract_domain_set_from_hosts_format_bytes ("0.0.0.0 ." ++ String LF "") = [""]
  /\ extract_domain_set_from_hosts_format_bytes "0.0.0.0 # comment" = [""]
  /\ extract_domain_set_from_dnsgate_format_file "." = []
  /\ extract_domain_set_from_dnsgate_format_file "lwn.net # allows lwn.net"
     = ["lwn.net "].
Proof. repeat split; reflexivity. Qed.

(** C9 (as the program has it): in a hosts-format source, a line that
    holds no blank after the clean-up and the comment cut contributes
    nothing: the extracted set is the one the other lines give.  The whole
    remaining text is the candidate token in a native list file only,
    where a line whose token normalizes to a non-empty domain puts that
    domain in the extracted set. *)
Theorem bare_line_is_native_format_only :
  (forall (hosts_format_bytes : bytes) (before after : list bytes) (line : bytes),
      split LF hosts_format_bytes = (before ++ line :: after)%list ->
      contains " " (hosts_format_clean_line line) = false ->
      extract_domain_set_from_hosts_format_bytes hosts_format_bytes
      = fold_left hosts_format_line (before ++ after)%list [])
  /\ (forall (dnsgate_file_bytes line : bytes),
         In line (splitlines dnsgate_file_bytes) ->
         join_nonempty_labels (remove_comments_from_bytes (strip line)) <> "" ->
         In (join_nonempty_labels (remove_comments_from_bytes (strip line)))
            (extract_domain_set_from_dnsgate_format_file dnsgate_file_bytes)).
Proof.
  split.
  - intros b before after line Hsplit Hbare.
    unfold extract_domain_set_from_hosts_format_bytes.
    rewrite Hsplit, !fold_left_app. simpl.
    unfold hosts_format_line at 2. now rewrite Hbare.
  - intros b line Hin Hne. now apply dnsgate_format_lines_add.
Qed.

Lemma bare_line_is_native_format_only_witness :
  extract_domain_set_from_hosts_format_bytes
    ("0.0.0.0 ads.example.com" ++ String LF "example.org")
  = fold_left hosts_format_line ["0.0.0.0 ads.example.com"] []
  /\ In "example.org"
        (extract_domain_set_from_dnsgate_format_file
           ("ads.example.com" ++ String LF "example.org")).
Proof.
  split.
  - apply (proj1 bare_line_is_native_format_only
             ("0.0.0.0 ads.example.com" ++ String LF "example.org")
             ["0.0.0.0 ads.example.com"] [] "example.org");
      reflexivity.
  - apply (proj2 bare_line_is_native_format_only
             ("ads.example.com" ++ String LF "example.org") "example.org").
    + simpl. right. now left.
    + discriminate.
Defined.

(** A hosts-format source that is one bare domain yields no domain. *)
Lemma hosts_format_skips_bare_line :
  In "example.com" (split LF ("example.com" ++ String LF ""))
  /\ contains " " (hosts_format_clean_line "example.com") = false
  /\ join_nonempty_labels (hosts_format_clean_line "example.com") = "example.com"
  /\ ~ In "example.com"
       (extract_domain_set_from_hosts_format_bytes ("example.com" ++ String LF "")).
Proof.
  repeat split; try reflexivity.
  - simpl. now left.
  - intros [].
Qed.

(** *** What the extractors do guarantee: no comment marker *)

Lemma contains_app (c : ascii) (s t : bytes) :
  contains c (s ++ t) = contains c s || contains c t.
Proof.
  induction s as [|a s IH]; simpl; [reflexivity|].
  now rewrite IH, orb_assoc.
Qed.

Lemma remove_comments_no_hash (line : bytes) :
  contains "#" (remove_comments_from_bytes line) = false.
Proof.
  induction line as [|c line IH]; simpl; [reflexivity|].
  destruct (Ascii.eqb c "#") eqn:E; simpl; [reflexivity|].
  now rewrite E, IH.
Qed.

Lemma split_by_contains (p : ascii -> bool) (c : ascii) (s piece : bytes) :
  In piece (split_by p s) -> contains c piece = true -> contains c s = true.
Proof.
  revert piece. induction s as [|a s IH]; simpl; intros piece Hin Hc.
  - destruct Hin as [<-|[]]. discriminate.
  - destruct (p a).
    + destruct Hin as [<-|Hin]; [discriminate|].
      rewrite (IH _ Hin Hc). apply orb_true_r.
    + pose proof (split_by_not_nil p s) as N.
      destruct (split_by p s) as [|h t]; [congruence|].
      destruct Hin as [<-|Hin].
      * simpl in Hc. apply orb_true_iff in Hc. destruct Hc as [Hc|Hc].
        -- now rewrite Hc.
        -- rewrite (IH h (or_introl eq_refl) Hc). apply orb_true_r.
      * rewrite (IH piece (or_intror Hin) Hc). apply orb_true_r.
Qed.

Lemma join_contains (c : ascii) (sep : bytes) (l : list bytes) :
  contains c (join sep l) = true ->
  contains c sep = true \/ exists x, In x l /\ contains c x = true.
Proof.
  induction l as [|x l IH]; simpl; [discriminate|].
  destruct l as [|y l].
  - intros H. right. exists x. auto.
  - rewrite !contains_app, !orb_true_iff. intros [H|[H|H]].
    + right. exists x. auto.
    + now left.
    + destruct (IH H) as [Hs|[z [Hz Hc]]]; [now left|].
      right. exists z. auto.
Qed.

Lemma join_nonempty_labels_contains (c : ascii) (line : bytes) :
  c <> "."%char ->
  contains c (join_nonempty_labels line) = true -> contains c line = true.
Proof.
  intros Hdot H. unfold join_nonempty_labels in H.
  apply join_contains in H. destruct H as [H|[x [Hx Hc]]].
  - cbn [contains] in H. rewrite orb_false_r in H.
    apply Ascii.eqb_eq in H. congruence.
  - apply filter_In in Hx. destruct Hx as [Hx _].
    exact (split_by_contains _ c line x Hx Hc).
Qed.

Lemma dnsgate_format_line_no_hash (domains : DomainSet) (line : bytes) :
  Forall (fun d => contains "#" d = false) domains ->
  Forall (fun d => contains "#" d = false) (dnsgate_format_line domains line).
Proof.
  intros H. unfold dnsgate_format_line.
  destruct (Nat.ltb 0 _); [|exact H].
  apply Forall_forall. intros d Hd. apply In_add in Hd.
  destruct Hd as [->|Hd]; [|rewrite Forall_forall in H; now apply H].
  destruct (contains "#" (join_nonempty_labels _)) eqn:E; [|reflexivity].
  apply join_nonempty_labels_contains in E; [|discriminate].
  now rewrite remove_comments_no_hash in E.
Qed.

Lemma hosts_format_line_no_hash (domains : DomainSet) (line : bytes) :
  Forall (fun d => contains "#" d = false) domains ->
  Forall (fun d => contains "#" d = false) (hosts_format_line domains line).
Proof.
  intros H. unfold hosts_format_line.
  destruct (contains " " (hosts_format_clean_line line)); [|exact H].
  apply Forall_forall. intros d Hd. apply In_add in Hd.
  destruct Hd as [->|Hd]; [|rewrite Forall_forall in H; now apply H].
  destruct (contains "#" (join_nonempty_labels _)) eqn:E; [|reflexivity].
  apply join_nonempty_labels_contains in E; [|discriminate].
  destruct (nth_in_or_default 1 (split " " (hosts_format_clean_line line)) "")
    as [Hin|Hdef].
  - apply (split_by_contains _ "#" _ _ Hin) in E.
    unfold hosts_format_clean_line in E.
    now rewrite remove_comments_no_hash in E.
  - rewrite Hdef in E. discriminate.
Qed.

(** Whatever the input, no extracted domain holds a [#]. *)
Lemma extracted_domains_no_hash (input d : bytes) :
  In d (extract_domain_set_from_hosts_format_bytes input)
  \/ In d (extract_domain_set_from_dnsgate_format_file input) ->
  contains "#" d = false.
Proof.
  assert (G1 : forall lines acc,
             Forall (fun d => contains "#" d = false) acc ->
             Forall (fun d => contains "#" d = false)
               (fold_left hosts_format_line lines acc)).
  { induction lines as [|l lines IH]; intros acc H; simpl; [exact H|].
    now apply IH, hosts_format_line_no_hash. }
  assert (G2 : forall lines acc,
             Forall (fun d => contains "#" d = false) acc ->
             Forall (fun d => contains "#" d = false)
               (fold_left dnsgate_format_line lines acc)).
  { induction lines as [|l lines IH]; intros acc H; simpl; [exact H|].
    now apply IH, dnsgate_format_line_no_hash. }
  intros [H|H].
  - specialize (G1 (split LF input) [] (Forall_nil _)).
    rewrite Forall_forall in G1. now apply G1.
  - specialize (G2 (splitlines input) [] (Forall_nil _)).
    rewrite Forall_forall in G2. now apply G2.
Qed.

(** ** Whole runs *)

(** The example of the reconciliation, through the whole run: the rule for
    ads.example.com is written. *)
Example run_blocks_subdomain_of_whitelisted_root :
  final_rule_set idna_ascii sample_tld_extract sample_config
    (one_source_env (Some "example.com") None
       ("0.0.0.0 ads.example.com" ++ String LF ""))
  = Ok ["ads.example.com"].
Proof. vm_compute. reflexivity. Qed.

(** A source that lists com, com.com and a.com.com ends the run with a
    KeyError, nothing written. *)
Example run_raises_KeyError :
  generate idna_ascii sample_tld_extract plain_config
    (one_source_env None None
       ("0.0.0.0 com" ++ String LF "0.0.0.0 com.com"
          ++ String LF "0.0.0.0 a.com.com" ++ String LF ""))
    sample_world
  = (Raise (KeyError "a.com.com"), sample_world).
Proof. vm_compute. reflexivity. Qed.

(** So does a commented-out hosts entry next to a blocked top-level
    domain: the empty domain and biz both hit ads.example.biz. *)
Example run_raises_KeyError_on_empty_domain :
  generate idna_ascii sample_tld_extract plain_config
    (one_source_env None (Some "biz")
       ("127.0.0.1 # local" ++ String LF "0.0.0.0 ads.example.biz"
          ++ String LF ""))
    sample_world
  = (Raise (KeyError "ads.example.biz"), sample_world).
Proof. vm_compute. reflexivity. Qed.

(** Both example.com and a.b.example.com reach the output. *)
Example run_writes_covered_subdomain :
  final_rule_set idna_ascii sample_tld_extract plain_config
    (one_source_env None None
       ("0.0.0.0 example.com" ++ String LF "0.0.0.0 a.b.example.com"
          ++ String LF ""))
  = Ok ["example.com"; "a.b.example.com"].
Proof. vm_compute. reflexivity. Qed.

(** The empty domain is the first check of every domain: once it is in the
    set, the pass removes everything and the run quits. *)
Example run_emptied_by_empty_domain :
  final_rule_set idna_ascii sample_tld_extract plain_config
    (one_source_env None None
       ("0.0.0.0 ads.example.com" ++ String LF "0.0.0.0 # comment"
          ++ String LF ""))
  = Ok []
  /\ fst (generate idna_ascii sample_tld_extract plain_config
            (one_source_env None None
               ("0.0.0.0 ads.example.com" ++ String LF "0.0.0.0 # comment"
                  ++ String LF ""))
            sample_world)
     = Raise (SystemExit 1).
Proof. split; vm_compute; reflexivity. Qed.

(** * Further properties *)

(** ** Bytes, continued *)

Lemma contains_any_byte (c : ascii) (s : bytes) :
  contains c s = any_byte (fun c' => Ascii.eqb c' c) s.
Proof. induction s as [|a s IH]; simpl; [reflexivity | now rewrite IH]. Qed.

Lemma any_byte_app (p : ascii -> bool) (s t : bytes) :
  any_byte p (s ++ t) = any_byte p s || any_byte p t.
Proof.
  induction s as [|a s IH]; simpl; [reflexivity|]. now rewrite IH, orb_assoc.
Qed.

Lemma any_byte_impl (p q : ascii -> bool) (s : bytes) :
  (forall c, p c = true -> q c = true) ->
  any_byte p s = true -> any_byte q s = true.
Proof.
  intros Hpq. induction s as [|a s IH]; simpl; [discriminate|].
  rewrite !orb_true_iff. intros [H|H]; [left; now apply Hpq | right; now apply IH].
Qed.

Lemma split_by_pieces_any (p q : ascii -> bool) (s piece : bytes) :
  In piece (split_by p s) -> any_byte q piece = true -> any_byte q s = true.
Proof.
  revert piece. induction s as [|a s IH]; simpl; intros piece Hin Hq.
  - destruct Hin as [<-|[]]. discriminate.
  - destruct (p a).
    + destruct Hin as [<-|Hin]; [discriminate|].
      rewrite (IH _ Hin Hq). apply orb_true_r.
    + pose proof (split_by_not_nil p s) as N.
      destruct (split_by p s) as [|h t]; [congruence|].
      destruct Hin as [<-|Hin].
      * simpl in Hq. apply orb_true_iff in Hq. destruct Hq as [Hq|Hq].
        -- now rewrite Hq.
        -- rewrite (IH h (or_introl eq_refl) Hq). apply orb_true_r.
      * rewrite (IH piece (or_intror Hin) Hq). apply orb_true_r.
Qed.

Lemma split_by_pieces_free (p : ascii -> bool) (s piece : bytes) :
  In piece (split_by p s) -> any_byte p piece = false.
Proof.
  revert piece. induction s as [|a s IH]; simpl; intros piece Hin.
  - destruct Hin as [<-|[]]. reflexivity.
  - destruct (p a) eqn:Pa.
    + destruct Hin as [<-|Hin]; [reflexivity | now apply IH].
    + pose proof (split_by_not_nil p s) as N.
      destruct (split_by p s) as [|h t]; [congruence|].
      destruct Hin as [<-|Hin].
      * simpl. rewrite Pa. apply IH. now left.
      * apply IH. now right.
Qed.

Lemma join_any_byte (p : ascii -> bool) (sep : bytes) (l : list bytes) :
  any_byte p (join sep l) = true ->
  any_byte p sep = true \/ exists x, In x l /\ any_byte p x = true.
Proof.
  induction l as [|x l IH]; simpl; [discriminate|].
  destruct l as [|y l].
  - intros H. right. exists x. auto.
  - rewrite !any_byte_app, !orb_true_iff. intros [H|[H|H]].
    + right. exists x. auto.
    + now left.
    + destruct (IH H) as [Hs|[z [Hz Hc]]]; [now left|].
      right. exists z. auto.
Qed.

Lemma lstrip_any_byte (p : ascii -> bool) (s : bytes) :
  any_byte p (lstrip s) = true -> any_byte p s = true.
Proof.
  induction s as [|a s IH]; simpl; [discriminate|].
  destruct (isspace a); simpl.
  - intros H. rewrite (IH H). apply orb_true_r.
  - tauto.
Qed.

Lemma rstrip_any_byte (p : ascii -> bool) (s : bytes) :
  any_byte p (rstrip s) = true -> any_byte p s = true.
Proof.
  induction s as [|a s IH]; simpl; [discriminate|].
  destruct (rstrip s) as [|b r].
  - destruct (isspace a); simpl; [discriminate|].
    rewrite orb_false_r. intros ->. reflexivity.
  - change (any_byte p (String a (String b r)))
      with (p a || any_byte p (String b r)).
    rewrite !orb_true_iff. intros [H|H]; [now left | right; now apply IH].
Qed.

Lemma strip_any_byte (p : ascii -> bool) (s : bytes) :
  any_byte p (strip s) = true -> any_byte p s = true.
Proof. intros H. now apply lstrip_any_byte, rstrip_any_byte. Qed.

Lemma remove_comments_any_byte (p : ascii -> bool) (s : bytes) :
  any_byte p (remove_comments_from_bytes s) = true -> any_byte p s = true.
Proof.
  induction s as [|a s IH]; simpl; [discriminate|].
  destruct (Ascii.eqb a "#"); simpl; [discriminate|].
  rewrite !orb_true_iff. intros [H|H]; [now left | right; now apply IH].
Qed.

Lemma split_pieces_no_sep (sep : ascii) (s : bytes) :
  Forall (fun x => contains sep x = false) (split sep s).
Proof.
  apply Forall_forall. intros x Hx. rewrite contains_any_byte.
  exact (split_by_pieces_free _ s x Hx).
Qed.

Lemma split_no_sep (sep : ascii) (x : bytes) :
  contains sep x = false -> split sep x = [x].
Proof.
  unfold split. induction x as [|a x IH]; simpl; [reflexivity|].
  intros H. apply orb_false_iff in H. destruct H as [Ha Hx].
  rewrite Ha, (IH Hx). reflexivity.
Qed.

Lemma split_app_sep (sep : ascii) (x rest : bytes) :
  contains sep x = false ->
  split sep (x ++ String sep rest) = x :: split sep rest.
Proof.
  unfold split. induction x as [|a x IH]; simpl.
  - intros _. now rewrite Ascii.eqb_refl.
  - intros H. apply orb_false_iff in H. destruct H as [Ha Hx].
    rewrite Ha, (IH Hx). reflexivity.
Qed.

(** [sep.join(l).split(sep) == l] for a non-empty list of pieces without
    [sep]. *)
Lemma split_join (sep : ascii) (l : list bytes) :
  l <> [] -> Forall (fun x => contains sep x = false) l ->
  split sep (join (String sep "") l) = l.
Proof.
  induction l as [|x l IH]; [congruence|]. intros _ H.
  inversion H as [|x' l' Hx Hl]; subst.
  destruct l as [|y l].
  - simpl. now apply split_no_sep.
  - change (join (String sep "") (x :: y :: l))
      with (x ++ String sep (join (String sep "") (y :: l))).
    rewrite (split_app_sep _ _ _ Hx), IH; [reflexivity | discriminate | exact Hl].
Qed.

Lemma filter_nonempty_idem (l : list bytes) :
  filter nonempty (filter nonempty l) = filter nonempty l.
Proof.
  induction l as [|x l IH]; simpl; [reflexivity|].
  destruct (nonempty x) eqn:E; simpl; [now rewrite E, IH | exact IH].
Qed.

Lemma labels_of_join_nonempty_labels (line : bytes) :
  join_nonempty_labels line = ""
  \/ split "." (join_nonempty_labels line) = filter nonempty (split "." line).
Proof.
  unfold join_nonempty_labels.
  destruct (filter nonempty (split "." line)) as [|x l] eqn:E; [now left|].
  right. apply split_join; [discriminate|].
  rewrite <- E. apply Forall_forall. intros y Hy.
  apply filter_In in Hy. destruct Hy as [Hy _].
  pose proof (split_pieces_no_sep "." line) as F.
  rewrite Forall_forall in F. now apply F.
Qed.

Lemma labels_nonempty_join_nonempty_labels (line : bytes) :
  join_nonempty_labels line = ""
  \/ labels_nonempty (join_nonempty_labels line) = true.
Proof.
  destruct (labels_of_join_nonempty_labels line) as [H|H]; [now left|].
  right. unfold labels_nonempty. rewrite H. apply forallb_forall.
  intros x Hx. now apply filter_In in Hx.
Qed.

Lemma join_nonempty_labels_fixed (d : bytes) :
  labels_nonempty d = true -> join_nonempty_labels d = d.
Proof.
  unfold labels_nonempty, join_nonempty_labels. intros H.
  replace (filter nonempty (split "." d)) with (split "." d); [apply join_split|].
  induction (split "." d) as [|x l IH]; simpl in *; [reflexivity|].
  apply andb_true_iff in H. destruct H as [Hx Hl]. now rewrite Hx, <- IH.
Qed.

(** ** The normalizer, continued *)

(** X1: [remove_comments_from_bytes] returns the longest prefix of the
    line that holds no [#]: the line is the result followed by nothing or
    by a rest that starts with [#]. *)
Theorem remove_comments_longest_prefix (line : bytes) :
  exists rest,
    line = remove_comments_from_bytes line ++ rest
    /\ contains "#" (remove_comments_from_bytes line) = false
    /\ (rest = "" \/ exists r, rest = String "#" r).
Proof.
  induction line as [|c line [rest [E [H R]]]]; simpl.
  - exists "". auto.
  - destruct (Ascii.eqb c "#") eqn:Ec.
    + apply Ascii.eqb_eq in Ec. subst c. exists (String "#" line). simpl. eauto.
    + exists rest. simpl. rewrite Ec, H, <- E. auto.
Qed.

(** X2: dropping empty labels is idempotent, and its result is empty or
    has no empty label (no leading, trailing or doubled dot). *)
Theorem join_nonempty_labels_idempotent (line : bytes) :
  join_nonempty_labels (join_nonempty_labels line) = join_nonempty_labels line
  /\ (join_nonempty_labels line = ""
      \/ labels_nonempty (join_nonempty_labels line) = true).
Proof.
  split; [|apply labels_nonempty_join_nonempty_labels].
  destruct (labels_nonempty_join_nonempty_labels line) as [H|H].
  - rewrite H. reflexivity.
  - now apply join_nonempty_labels_fixed.
Qed.

Lemma any_byte_orb (p q : ascii -> bool) (s : bytes) :
  any_byte (fun c => p c || q c) s = any_byte p s || any_byte q s.
Proof.
  induction s as [|a s IH]; simpl; [reflexivity|]. rewrite IH.
  destruct (p a), (q a), (any_byte p s), (any_byte q s); reflexivity.
Qed.

(** After the clean-up of a hosts line, a blank is the only whitespace
    left. *)
Lemma hosts_format_clean_line_only_blanks (line : bytes) :
  any_byte (fun c => isspace c && negb (Ascii.eqb c " "))
    (hosts_format_clean_line line) = false.
Proof.
  destruct (any_byte _ (hosts_format_clean_line line)) eqn:E; [|reflexivity].
  unfold hosts_format_clean_line in E.
  apply remove_comments_any_byte, strip_any_byte, join_any_byte in E.
  destruct E as [E|[x [Hx E]]]; [discriminate|].
  apply filter_In in Hx. destruct Hx as [Hx _].
  apply split_by_pieces_free in Hx.
  apply (any_byte_impl _ isspace) in E; [congruence|].
  intros c Hc. now apply andb_true_iff in Hc.
Qed.

Lemma hosts_format_field_no_space (line : bytes) :
  any_byte isspace (nth 1 (split " " (hosts_format_clean_line line)) "") = false.
Proof.
  destruct (nth_in_or_default 1 (split " " (hosts_format_clean_line line)) "")
    as [Hin | ->]; [|reflexivity].
  set (tok := nth 1 (split " " (hosts_format_clean_line line)) "") in *.
  destruct (any_byte isspace tok) eqn:E; [|reflexivity].
  apply (any_byte_impl _
           (fun c => (isspace c && negb (Ascii.eqb c " ")) || Ascii.eqb c " ")) in E.
  - rewrite any_byte_orb in E. apply orb_true_iff in E. destruct E as [E|E].
    + apply (split_by_pieces_any _ _ _ _ Hin) in E.
      now rewrite hosts_format_clean_line_only_blanks in E.
    + now rewrite (split_by_pieces_free _ _ _ Hin) in E.
  - intros c Hc. rewrite Hc. now destruct (Ascii.eqb c " ").
Qed.

Lemma join_nonempty_labels_any_byte (p : ascii -> bool) (line : bytes) :
  p "."%char = false ->
  any_byte p (join_nonempty_labels line) = true -> any_byte p line = true.
Proof.
  intros Hdot H. unfold join_nonempty_labels in H.
  apply join_any_byte in H. destruct H as [H|[x [Hx Hc]]].
  - simpl in H. now rewrite Hdot in H.
  - apply filter_In in Hx. destruct Hx as [Hx _].
    exact (split_by_pieces_any _ p line x Hx Hc).
Qed.

Lemma hosts_format_domain_no_space (line : bytes) :
  any_byte isspace
    (join_nonempty_labels (nth 1 (split " " (hosts_format_clean_line line)) ""))
  = false.
Proof.
  destruct (any_byte isspace (join_nonempty_labels _)) eqn:E; [|reflexivity].
  apply join_nonempty_labels_any_byte in E; [|reflexivity].
  now rewrite hosts_format_field_no_space in E.
Qed.

Lemma hosts_format_lines_inv (P : bytes -> Prop) :
  (forall line, P (join_nonempty_labels
                     (nth 1 (split " " (hosts_format_clean_line line)) ""))) ->
  forall lines acc, Forall P acc -> Forall P (fold_left hosts_format_line lines acc).
Proof.
  intros HP. induction lines as [|l lines IH]; intros acc H; simpl; [exact H|].
  apply IH. unfold hosts_format_line.
  destruct (contains " " (hosts_format_clean_line l)); [|exact H].
  apply Forall_forall. intros d Hd. apply In_add in Hd.
  destruct Hd as [->|Hd]; [apply HP|]. rewrite Forall_forall in H. now apply H.
Qed.

(** X3: whatever bytes a hosts-format source holds, no extracted domain
    contains whitespace or [#], and an extracted domain is empty or has no
    empty label. *)
Theorem hosts_format_domains_wellformed (hosts_format_bytes d : bytes) :
  In d (extract_domain_set_from_hosts_format_bytes hosts_format_bytes) ->
  any_byte isspace d = false
  /\ contains "#" d = false
  /\ (d = "" \/ labels_nonempty d = true).
Proof.
  intros H. split; [|split].
  - pose proof (hosts_format_lines_inv
                  (fun d => any_byte isspace d = false)
                  hosts_format_domain_no_space
                  (split LF hosts_format_bytes) [] (Forall_nil _)) as G.
    rewrite Forall_forall in G. now apply G.
  - apply (extracted_domains_no_hash hosts_format_bytes). now left.
  - pose proof (hosts_format_lines_inv
                  (fun d => d = "" \/ labels_nonempty d = true)
                  (fun line => labels_nonempty_join_nonempty_labels _)
                  (split LF hosts_format_bytes) [] (Forall_nil _)) as G.
    rewrite Forall_forall in G. now apply G.
Qed.

Lemma hosts_format_domains_wellformed_witness :
  any_byte isspace "ads.example.com" = false
  /\ contains "#" "ads.example.com" = false
  /\ ("ads.example.com" = "" \/ labels_nonempty "ads.example.com" = true).
Proof.
  apply (hosts_format_domains_wellformed
           ("127.0.0.1" ++ String TAB " .ads.example.com.  # ad server")).
  vm_compute. now left.
Defined.

Lemma dnsgate_format_lines_inv (P : bytes -> Prop) :
  (forall line,
      join_nonempty_labels (remove_comments_from_bytes (strip line)) <> "" ->
      P (join_nonempty_labels (remove_comments_from_bytes (strip line)))) ->
  forall lines acc, Forall P acc -> Forall P (fold_left dnsgate_format_line lines acc).
Proof.
  intros HP. induction lines as [|l lines IH]; intros acc H; simpl; [exact H|].
  apply IH. unfold dnsgate_format_line.
  destruct (join_nonempty_labels (remove_comments_from_bytes (strip l)))
    as [|c r] eqn:E; simpl; [exact H|].
  apply Forall_forall. intros d Hd. apply In_add in Hd.
  destruct Hd as [->|Hd].
  - rewrite <- E. apply HP. rewrite E. discriminate.
  - rewrite Forall_forall in H. now apply H.
Qed.

(** X4: whatever bytes a native list file holds, every extracted domain is
    non-empty, contains no [#] and has no empty label. *)
Theorem dnsgate_format_domains_wellformed (dnsgate_file_bytes d : bytes) :
  In d (extract_domain_set_from_dnsgate_format_file dnsgate_file_bytes) ->
  d <> "" /\ contains "#" d = false /\ labels_nonempty d = true.
Proof.
  intros H.
  pose proof (dnsgate_format_lines_inv
                (fun d => d <> "" /\ contains "#" d = false
                          /\ labels_nonempty d = true)) as G.
  assert (HP : forall line,
             join_nonempty_labels (remove_comments_from_bytes (strip line)) <> "" ->
             join_nonempty_labels (remove_comments_from_bytes (strip line)) <> ""
             /\ contains "#"
                  (join_nonempty_labels (remove_comments_from_bytes (strip line)))
                = false
             /\ labels_nonempty
                  (join_nonempty_labels (remove_comments_from_bytes (strip line)))
                = true).
  { intros line Hne. split; [exact Hne|]. split.
    - destruct (contains "#" (join_nonempty_labels _)) eqn:E; [|reflexivity].
      apply join_nonempty_labels_contains in E; [|discriminate].
      now rewrite remove_comments_no_hash in E.
    - destruct (labels_nonempty_join_nonempty_labels
                  (remove_comments_from_bytes (strip line))); congruence. }
  specialize (G HP (splitlines dnsgate_file_bytes) [] (Forall_nil _)).
  rewrite Forall_forall in G. now apply G.
Qed.

Lemma dnsgate_format_domains_wellformed_witness :
  "lwn.net" <> "" /\ contains "#" "lwn.net" = false
  /\ labels_nonempty "lwn.net" = true.
Proof.
  apply (dnsgate_format_domains_wellformed
           ("# whitelist" ++ String CR (String LF "  ..lwn.net.#allowed")
              ++ String LF "..")).
  vm_compute. now left.
Defined.

(** X5: [line.split(b' ')[1]] never raises IndexError: whenever the
    cleaned line passes the test [b' ' in line], its split has a field of
    index 1, which is the field the model reads. *)
Theorem hosts_format_field_exists (line : bytes) :
  contains " " (hosts_format_clean_line line) = true ->
  exists field,
    nth_error (split " " (hosts_format_clean_line line)) 1 = Some field
    /\ nth 1 (split " " (hosts_format_clean_line line)) "" = field.
Proof.
  intros H. apply hosts_field_in_range in H.
  destruct (split " " (hosts_format_clean_line line)) as [|a [|b l]];
    simpl in *; try lia. eauto.
Qed.

Lemma hosts_format_field_exists_witness :
  exists field,
    nth_error (split " " (hosts_format_clean_line "0.0.0.0 # none")) 1 = Some field
    /\ nth 1 (split " " (hosts_format_clean_line "0.0.0.0 # none")) "" = field.
Proof.
  apply (hosts_format_field_exists "0.0.0.0 # none"). reflexivity.
Defined.

(** *** An entry line yields its second field *)

Lemma append_assoc (a b c : bytes) : (a ++ b) ++ c = a ++ b ++ c.
Proof. induction a as [|x a IH]; simpl; [reflexivity | now rewrite IH]. Qed.

Lemma append_nil_r (a : bytes) : a ++ "" = a.
Proof. induction a as [|x a IH]; simpl; [reflexivity | now rewrite IH]. Qed.

Lemma rstrip_no_space (f : bytes) : any_byte isspace f = false -> rstrip f = f.
Proof.
  induction f as [|c f IH]; simpl; [reflexivity|].
  intros H. apply orb_false_iff in H. destruct H as [Hc Hf].
  rewrite (IH Hf), Hc. now destruct f.
Qed.

Lemma rstrip_app (a b : bytes) : rstrip b <> "" -> rstrip (a ++ b) = a ++ rstrip b.
Proof.
  intros Hb. induction a as [|c a IH]; simpl; [reflexivity|].
  rewrite IH. destruct (a ++ rstrip b) as [|x r] eqn:E; [|reflexivity].
  destruct a; simpl in E; [congruence | discriminate].
Qed.

Lemma remove_comments_app (a b : bytes) :
  contains "#" a = false ->
  remove_comments_from_bytes (a ++ b) = a ++ remove_comments_from_bytes b.
Proof.
  induction a as [|c a IH]; simpl; [reflexivity|].
  intros H. apply orb_false_iff in H. destruct H as [Hc Ha].
  now rewrite Hc, (IH Ha).
Qed.

(** The fields [bytes.split()] returns are non-empty and free of
    whitespace. *)
Lemma split_ws_fields (s : bytes) :
  Forall (fun f => f <> "" /\ any_byte isspace f = false) (split_ws s).
Proof.
  apply Forall_forall. intros f Hf. unfold split_ws in Hf.
  apply filter_In in Hf. destruct Hf as [Hin Hne]. split.
  - intros ->. discriminate.
  - exact (split_by_pieces_free _ _ _ Hin).
Qed.

Lemma join_fields_head (fields : list bytes) :
  Forall (fun f => f <> "" /\ any_byte isspace f = false) fields ->
  fields <> [] ->
  exists c r, join " " fields = String c r /\ isspace c = false.
Proof.
  intros H Hne. destruct fields as [|f fields]; [congruence|].
  inversion H as [|f' l' [Hf Hs] Hl]; subst.
  destruct f as [|c f]; [congruence|].
  simpl in Hs. apply orb_false_iff in Hs. destruct Hs as [Hc _].
  destruct fields; simpl; eauto.
Qed.

Lemma join_fields_stripped (fields : list bytes) :
  Forall (fun f => f <> "" /\ any_byte isspace f = false) fields ->
  strip (join " " fields) = join " " fields.
Proof.
  intros H. unfold strip.
  assert (L : lstrip (join " " fields) = join " " fields).
  { destruct fields as [|f fields]; [reflexivity|].
    destruct (join_fields_head (f :: fields) H) as [c [r [E Hc]]]; [discriminate|].
    rewrite E. simpl. now rewrite Hc. }
  rewrite L. clear L.
  induction H as [|f fields [Hf Hs] Hl IH]; [reflexivity|].
  destruct fields as [|g fields]; [now apply rstrip_no_space|].
  change (join " " (f :: g :: fields)) with (f ++ " " ++ join " " (g :: fields)).
  destruct (join_fields_head (g :: fields) Hl) as [c [r [E Hc]]]; [discriminate|].
  assert (R : rstrip (" " ++ join " " (g :: fields)) = " " ++ join " " (g :: fields)).
  { rewrite rstrip_app; rewrite IH; [reflexivity|]. rewrite E. discriminate. }
  rewrite rstrip_app; rewrite R; [reflexivity | discriminate].
Qed.

Lemma hosts_format_lines_keep (lines : list bytes) (acc : DomainSet) (x : bytes) :
  In x acc -> In x (fold_left hosts_format_line lines acc).
Proof.
  revert acc. induction lines as [|l lines IH]; intros acc H; simpl; [exact H|].
  apply IH. unfold hosts_format_line.
  destruct (contains " " _); [apply In_add; now right | exact H].
Qed.

Lemma no_space_no_blank (f : bytes) :
  any_byte isspace f = false -> contains " " f = false.
Proof.
  intros H. rewrite contains_any_byte.
  destruct (any_byte (fun c' => Ascii.eqb c' " ") f) eqn:E; [|reflexivity].
  apply (any_byte_impl _ isspace) in E; [congruence|].
  intros c Hc. apply Ascii.eqb_eq in Hc. now subst c.
Qed.

Lemma hosts_format_entry_line (domains : DomainSet) (line f1 f2 : bytes)
    (aliases : list bytes) :
  split_ws (replace TAB " " line) = f1 :: f2 :: aliases ->
  contains "#" f1 = false -> contains "#" f2 = false ->
  In (join_nonempty_labels f2) (hosts_format_line domains line).
Proof.
  intros Hfields H1 H2.
  pose proof (split_ws_fields (replace TAB " " line)) as F.
  rewrite Hfields in F.
  inversion F as [|x1 l1 [N1 S1] F1]; subst.
  inversion F1 as [|x2 l2 [N2 S2] F2]; subst.
  pose proof (no_space_no_blank f1 S1) as B1.
  pose proof (no_space_no_blank f2 S2) as B2.
  assert (C : exists t, hosts_format_clean_line line = f1 ++ String " " (f2 ++ t)
                        /\ (t = "" \/ exists r, t = String " " r)).
  { unfold hosts_format_clean_line. rewrite Hfields.
    rewrite (join_fields_stripped _ F).
    destruct aliases as [|a aliases].
    - exists "". split; [|now left].
      change (join " " [f1; f2]) with (f1 ++ String " " f2).
      rewrite remove_comments_app by exact H1. simpl.
      rewrite <- (append_nil_r f2) at 1.
      rewrite remove_comments_app by exact H2. reflexivity.
    - exists (String " " (remove_comments_from_bytes (join " " (a :: aliases)))).
      split; [|right; eauto].
      change (join " " (f1 :: f2 :: a :: aliases))
        with (f1 ++ String " " (f2 ++ String " " (join " " (a :: aliases)))).
      rewrite remove_comments_app by exact H1. simpl.
      rewrite remove_comments_app by exact H2. reflexivity. }
  destruct C as [t [E Ht]]. unfold hosts_format_line. rewrite E.
  rewrite contains_app. simpl. rewrite orb_true_r.
  rewrite (split_app_sep " " f1 (f2 ++ t) B1).
  assert (S : exists l, split " " (f2 ++ t) = f2 :: l).
  { destruct Ht as [->|[r ->]].
    - rewrite append_nil_r, (split_no_sep _ _ B2). eauto.
    - rewrite (split_app_sep " " f2 r B2). eauto. }
  destruct S as [l ->]. simpl. apply In_add. now left.
Qed.

(** X6: an entry line of a hosts-format source yields its second field.
    For every line of the source whose whitespace-separated fields are an
    address, a name and any aliases, address and name holding no [#], the
    name, without its empty labels, is in the extracted set, whatever
    blanks, tabs, aliases and trailing comment the line has. *)
Theorem hosts_format_entry_extracted
    (hosts_format_bytes line f1 f2 : bytes) (aliases : list bytes) :
  In line (split LF hosts_format_bytes) ->
  split_ws (replace TAB " " line) = f1 :: f2 :: aliases ->
  contains "#" f1 = false -> contains "#" f2 = false ->
  In (join_nonempty_labels f2)
     (extract_domain_set_from_hosts_format_bytes hosts_format_bytes).
Proof.
  intros Hin Hfields H1 H2. unfold extract_domain_set_from_hosts_format_bytes.
  generalize (@nil bytes) as acc.
  induction (split LF hosts_format_bytes) as [|l lines IH]; [destruct Hin|].
  intros acc. simpl. destruct Hin as [->|Hin].
  - apply hosts_format_lines_keep.
    exact (hosts_format_entry_line acc line f1 f2 aliases Hfields H1 H2).
  - now apply IH.
Qed.

Lemma hosts_format_entry_extracted_witness :
  In (join_nonempty_labels "ads.example.com.")
     (extract_domain_set_from_hosts_format_bytes
        ("# list" ++ String LF ("0.0.0.0" ++ String TAB "ads.example.com.  ads  # x")
           ++ String LF "")).
Proof.
  apply (hosts_format_entry_extracted
           ("# list" ++ String LF ("0.0.0.0" ++ String TAB "ads.example.com.  ads  # x")
              ++ String LF "")
           ("0.0.0.0" ++ String TAB "ads.example.com.  ads  # x")
           "0.0.0.0" "ads.example.com." ["ads"; "#"; "x"]).
  - simpl. right. now left.
  - reflexivity.
  - reflexivity.
  - reflexivity.
Defined.

(** ** Local rule files *)

Lemma string_ind2 (P : bytes -> Prop) :
  P "" -> (forall c, P (String c "")) ->
  (forall c1 c2 s, P s -> P (String c2 s) -> P (String c1 (String c2 s))) ->
  forall s, P s.
Proof.
  intros H0 H1 H2 s.
  enough (G : P s /\ forall c, P (String c s)) by apply G.
  induction s as [|c s [IH1 IH2]]; split; auto.
Qed.

Lemma lf_terminated_tail (c : ascii) (s : bytes) :
  lf_terminated (String c s) = true -> lf_terminated s = true.
Proof. destruct s; simpl; auto. Qed.

Lemma lf_terminated_app_line (content x : bytes) :
  lf_terminated (content ++ x ++ String LF "") = true.
Proof.
  rewrite <- append_assoc.
  induction (content ++ x) as [|c s IH]; [reflexivity|].
  simpl. destruct (s ++ String LF "") eqn:E; [|exact IH].
  destruct s; discriminate.
Qed.

Lemma no_newline_cons (c : ascii) (x : bytes) :
  no_newline (String c x) = true ->
  Ascii.eqb c LF = false /\ Ascii.eqb c CR = false /\ no_newline x = true.
Proof.
  unfold no_newline. simpl. intros H.
  apply andb_true_iff in H. destruct H as [H1 H2].
  apply negb_true_iff, orb_false_iff in H1.
  apply negb_true_iff, orb_false_iff in H2.
  destruct H1 as [H1 H1'], H2 as [H2 H2'].
  now rewrite H1, H2, H1', H2'.
Qed.

Lemma file_lines_nil (s : bytes) : file_lines s = [] -> s = "".
Proof.
  destruct s as [|c s]; [reflexivity|]. simpl.
  destruct (Ascii.eqb c LF); [discriminate|].
  destruct (Ascii.eqb c CR).
  - destruct s as [|c2 s]; [discriminate|]. destruct (Ascii.eqb c2 LF); discriminate.
  - destruct (file_lines s); discriminate.
Qed.

Lemma splitlines_nil (s : bytes) : splitlines s = [] -> s = "".
Proof.
  destruct s as [|c s]; [reflexivity|]. simpl.
  destruct (Ascii.eqb c LF); [discriminate|].
  destruct (Ascii.eqb c CR).
  - destruct s as [|c2 s]; [discriminate|]. destruct (Ascii.eqb c2 LF); discriminate.
  - destruct (splitlines s); discriminate.
Qed.

Lemma file_lines_cons (c : ascii) (s : bytes) :
  file_lines (String c s)
  = if Ascii.eqb c LF then String LF "" :: file_lines s
    else if Ascii.eqb c CR then
      match s with
      | String c2 s'' =>
          if Ascii.eqb c2 LF then String LF "" :: file_lines s''
          else String LF "" :: file_lines s
      | EmptyString => [String LF ""]
      end
    else match file_lines s with
         | [] => [String c EmptyString]
         | h :: t => String c h :: t
         end.
Proof. reflexivity. Qed.

Lemma splitlines_cons (c : ascii) (s : bytes) :
  splitlines (String c s)
  = if Ascii.eqb c LF then EmptyString :: splitlines s
    else if Ascii.eqb c CR then
      match s with
      | String c2 s'' =>
          if Ascii.eqb c2 LF then EmptyString :: splitlines s''
          else EmptyString :: splitlines s
      | EmptyString => [EmptyString]
      end
    else match splitlines s with
         | [] => [String c EmptyString]
         | h :: t => String c h :: t
         end.
Proof. reflexivity. Qed.

Lemma file_lines_single (x : bytes) :
  no_newline x = true -> file_lines (x ++ String LF "") = [x ++ String LF ""].
Proof.
  induction x as [|c x IH]; [reflexivity|]. intros H.
  apply no_newline_cons in H. destruct H as [H1 [H2 H3]].
  simpl. now rewrite H1, H2, (IH H3).
Qed.

Lemma splitlines_single (x : bytes) :
  no_newline x = true -> splitlines (x ++ String LF "") = [x].
Proof.
  induction x as [|c x IH]; [reflexivity|]. intros H.
  apply no_newline_cons in H. destruct H as [H1 [H2 H3]].
  simpl. now rewrite H1, H2, (IH H3).
Qed.

(** A line written at the end of a file that ends in LF is read back as
    the last line. *)
Lemma file_lines_app_line (content x : bytes) :
  lf_terminated content = true -> no_newline x = true ->
  file_lines (content ++ x ++ String LF "")
  = (file_lines content ++ [(x ++ String LF "")%string])%list.
Proof.
  intros Ht Hx. revert Ht.
  induction content as [|c|c1 c2 s IH1 IH2] using string_ind2; intros Ht.
  - now apply file_lines_single.
  - simpl in Ht. apply Ascii.eqb_eq in Ht. subst c.
    simpl. now rewrite file_lines_single.
  - pose proof (lf_terminated_tail _ _ Ht) as Ht2.
    pose proof (lf_terminated_tail _ _ Ht2) as Ht1.
    specialize (IH1 Ht1). specialize (IH2 Ht2).
    change (String c1 (String c2 s) ++ x ++ String LF "")
      with (String c1 (String c2 s ++ x ++ String LF "")).
    rewrite (file_lines_cons c1 (String c2 s)), (file_lines_cons c1).
    destruct (Ascii.eqb c1 LF).
    + rewrite IH2. reflexivity.
    + destruct (Ascii.eqb c1 CR).
      * change (String c2 s ++ x ++ String LF "")
          with (String c2 (s ++ x ++ String LF "")) in *.
        cbv beta iota.
        destruct (Ascii.eqb c2 LF); [rewrite IH1 | rewrite IH2]; reflexivity.
      * rewrite IH2. destruct (file_lines (String c2 s)) as [|h t] eqn:E;
          [apply file_lines_nil in E; discriminate | reflexivity].
Qed.

Lemma splitlines_app_line (content x : bytes) :
  lf_terminated content = true -> no_newline x = true ->
  splitlines (content ++ x ++ String LF "") = (splitlines content ++ [x])%list.
Proof.
  intros Ht Hx. revert Ht.
  induction content as [|c|c1 c2 s IH1 IH2] using string_ind2; intros Ht.
  - now apply splitlines_single.
  - simpl in Ht. apply Ascii.eqb_eq in Ht. subst c.
    simpl. now rewrite splitlines_single.
  - pose proof (lf_terminated_tail _ _ Ht) as Ht2.
    pose proof (lf_terminated_tail _ _ Ht2) as Ht1.
    specialize (IH1 Ht1). specialize (IH2 Ht2).
    change (String c1 (String c2 s) ++ x ++ String LF "")
      with (String c1 (String c2 s ++ x ++ String LF "")).
    rewrite (splitlines_cons c1 (String c2 s)), (splitlines_cons c1).
    destruct (Ascii.eqb c1 LF).
    + rewrite IH2. reflexivity.
    + destruct (Ascii.eqb c1 CR).
      * change (String c2 s ++ x ++ String LF "")
          with (String c2 (s ++ x ++ String LF "")) in *.
        cbv beta iota.
        destruct (Ascii.eqb c2 LF); [rewrite IH1 | rewrite IH2]; reflexivity.
      * rewrite IH2. destruct (splitlines (String c2 s)) as [|h t] eqn:E;
          [apply splitlines_nil in E; discriminate | reflexivity].
Qed.

Lemma line_read_as_cons (c : ascii) (read bare : bytes) :
  Ascii.eqb c LF = false ->
  line_read_as read bare -> line_read_as (String c read) (String c bare).
Proof.
  intros Hc [->|[-> H]]; [now left|]. right. split; [reflexivity|].
  simpl. now rewrite Hc.
Qed.

Lemma file_lines_splitlines (s : bytes) :
  Forall2 line_read_as (file_lines s) (splitlines s).
Proof.
  assert (E : line_read_as (String LF "") "") by now left.
  induction s as [|c|c1 c2 s IH1 IH2] using string_ind2.
  - constructor.
  - simpl. destruct (Ascii.eqb c LF) eqn:E1; [constructor; [exact E | constructor]|].
    destruct (Ascii.eqb c CR); [constructor; [exact E | constructor]|].
    constructor; [|constructor].
    right. split; [reflexivity|]. simpl. now rewrite E1.
  - rewrite (file_lines_cons c1), (splitlines_cons c1).
    destruct (Ascii.eqb c1 LF) eqn:E1.
    + constructor; [exact E | exact IH2].
    + destruct (Ascii.eqb c1 CR).
      * destruct (Ascii.eqb c2 LF); constructor; auto.
      * destruct (file_lines (String c2 s)) as [|h t] eqn:F;
          [apply file_lines_nil in F; discriminate|].
        destruct (splitlines (String c2 s)) as [|h' t'] eqn:F';
          [apply splitlines_nil in F'; discriminate|].
        inversion IH2; subst. constructor; [|assumption].
        now apply line_read_as_cons.
Qed.

Lemma length_append (a b : bytes) :
  String.length (a ++ b) = String.length a + String.length b.
Proof. induction a as [|x a IH]; simpl; [reflexivity | now rewrite IH]. Qed.

Lemma append_inj_r (a b c : bytes) : a ++ c = b ++ c -> a = b.
Proof.
  revert b. induction a as [|x a IH]; intros [|y b] H.
  - reflexivity.
  - apply (f_equal String.length) in H. simpl in H.
    rewrite length_append in H. lia.
  - apply (f_equal String.length) in H. simpl in H.
    rewrite length_append in H. lia.
  - simpl in H. injection H as -> H. f_equal. now apply IH.
Qed.

Lemma file_line_In_splitlines (s x : bytes) :
  In (x ++ String LF "") (file_lines s) -> In x (splitlines s).
Proof.
  intros H. pose proof (file_lines_splitlines s) as F.
  induction F as [|read bare l l' R F IH]; [destruct H|].
  destruct H as [->|H]; [|right; now apply IH].
  left. destruct R as [R|[R N]].
  - symmetry. now apply append_inj_r in R.
  - rewrite <- R, contains_app in N. simpl in N.
    rewrite orb_true_r in N. discriminate.
Qed.

Lemma existsb_eqb_In (line : bytes) (l : list bytes) :
  existsb (String.eqb line) l = true <-> In line l.
Proof.
  rewrite existsb_exists. split.
  - intros [y [Hy E]]. apply String.eqb_eq in E. now subst.
  - intros H. exists line. split; [exact H | apply String.eqb_refl].
Qed.

(** X7: [write_unique_line] on a rule file that is missing, empty or ends
    in LF, with a line that is a newline-free text followed by LF: after
    the call the line is one of the lines of the file, the file still ends
    in LF, and a second call changes nothing. *)
Theorem write_unique_line_idempotent (x : bytes) (file_to_write : option bytes) :
  no_newline x = true ->
  (forall content, file_to_write = Some content -> lf_terminated content = true) ->
  exists content',
    write_unique_line (x ++ String LF "") file_to_write = Some content'
    /\ In (x ++ String LF "") (file_lines content')
    /\ lf_terminated content' = true
    /\ write_unique_line (x ++ String LF "") (Some content') = Some content'.
Proof.
  intros Hx Hfile.
  assert (G : forall content',
             In (x ++ String LF "") (file_lines content') ->
             write_unique_line (x ++ String LF "") (Some content') = Some content').
  { intros content' H. unfold write_unique_line.
    apply existsb_eqb_In in H. now rewrite H. }
  destruct file_to_write as [content|]; simpl.
  - specialize (Hfile content eq_refl).
    destruct (existsb (String.eqb (x ++ String LF "")) (file_lines content)) eqn:E.
    + exists content. apply existsb_eqb_In in E. repeat split; auto; try (apply G; assumption).
    + exists (content ++ x ++ String LF "").
      assert (I : In (x ++ String LF "")
                     (file_lines (content ++ x ++ String LF ""))).
      { rewrite (file_lines_app_line _ _ Hfile Hx). apply in_or_app.
        right. now left. }
      repeat split; auto; try (apply G; assumption).
      apply lf_terminated_app_line.
  - exists (x ++ String LF "").
    assert (I : In (x ++ String LF "") (file_lines (x ++ String LF "")))
      by (rewrite (file_lines_single _ Hx); now left).
    repeat split; auto; try (apply G; assumption).
    apply (lf_terminated_app_line "" x).
Qed.

Lemma write_unique_line_idempotent_witness :
  exists content',
    write_unique_line ("lwn.net" ++ String LF "")
      (Some ("# whitelist" ++ String CR (String LF ("example.org" ++ String LF ""))))
    = Some content'
    /\ In ("lwn.net" ++ String LF "") (file_lines content')
    /\ lf_terminated content' = true
    /\ write_unique_line ("lwn.net" ++ String LF "") (Some content') = Some content'.
Proof.
  apply (write_unique_line_idempotent "lwn.net"
           (Some ("# whitelist"
                    ++ String CR (String LF ("example.org" ++ String LF ""))))).
  - reflexivity.
  - intros content [= <-]. reflexivity.
Defined.

Lemma clean_domain_parts (d : bytes) :
  clean_domain d = true ->
  d <> "" /\ any_byte isspace d = false /\ contains "#" d = false
  /\ labels_nonempty d = true.
Proof.
  unfold clean_domain. rewrite !andb_true_iff, !negb_true_iff.
  intros [[[H1 H2] H3] H4]. repeat split; auto. intros ->. discriminate.
Qed.

Lemma no_space_no_newline (d : bytes) :
  any_byte isspace d = false -> no_newline d = true.
Proof.
  intros H. unfold no_newline. rewrite !contains_any_byte.
  destruct (any_byte (fun c' => Ascii.eqb c' LF) d) eqn:E1.
  { apply (any_byte_impl _ isspace) in E1; [congruence|].
    intros c Hc. apply Ascii.eqb_eq in Hc. now subst c. }
  destruct (any_byte (fun c' => Ascii.eqb c' CR) d) eqn:E2; [|reflexivity].
  apply (any_byte_impl _ isspace) in E2; [congruence|].
  intros c Hc. apply Ascii.eqb_eq in Hc. now subst c.
Qed.

Lemma strip_no_space (d : bytes) : any_byte isspace d = false -> strip d = d.
Proof.
  intros H. unfold strip.
  assert (L : lstrip d = d).
  { destruct d as [|c d]; [reflexivity|]. simpl in *.
    apply orb_false_iff in H. destruct H as [Hc _]. now rewrite Hc. }
  rewrite L. now apply rstrip_no_space.
Qed.

Lemma remove_comments_no_comment (d : bytes) :
  contains "#" d = false -> remove_comments_from_bytes d = d.
Proof.
  intros H. rewrite <- (append_nil_r d) at 1.
  rewrite (remove_comments_app _ _ H). apply append_nil_r.
Qed.

(** The native extractor reads a clean domain as itself. *)
Lemma clean_domain_normal_form (d : bytes) :
  clean_domain d = true ->
  join_nonempty_labels (remove_comments_from_bytes (strip d)) = d.
Proof.
  intros H. apply clean_domain_parts in H. destruct H as [_ [H2 [H3 H4]]].
  rewrite (strip_no_space _ H2), (remove_comments_no_comment _ H3).
  now apply join_nonempty_labels_fixed.
Qed.

(** X8: what [append_to_local_rule_file] writes, the native extractor
    reads back.  For a rule file that is missing, empty or ends in LF, and
    a name whose encoding is a clean domain (non-empty, no whitespace, no
    [#], no empty label), the call leaves a file from which that domain is
    extracted, and every domain extracted before still is. *)
Theorem appended_domain_is_extracted (idna : bytes -> option bytes)
    (rule_file : option bytes) (idn hostname : bytes) :
  (forall content, rule_file = Some content -> lf_terminated content = true) ->
  idna idn = Some hostname ->
  clean_domain hostname = true ->
  exists content',
    append_to_local_rule_file idna rule_file idn = Some (Some content')
    /\ In hostname (extract_domain_set_from_dnsgate_format_file content')
    /\ (forall content d,
           rule_file = Some content ->
           In d (extract_domain_set_from_dnsgate_format_file content) ->
           In d (extract_domain_set_from_dnsgate_format_file content')).
Proof.
  intros Hfile Hidna Hclean. unfold append_to_local_rule_file. rewrite Hidna.
  pose proof (clean_domain_normal_form _ Hclean) as NF.
  pose proof (clean_domain_parts _ Hclean) as [Hne [Hsp _]].
  pose proof (no_space_no_newline _ Hsp) as Hnl.
  assert (Hadd : forall content,
             In hostname (splitlines content) ->
             In hostname (extract_domain_set_from_dnsgate_format_file content)).
  { intros content Hin. rewrite <- NF at 1.
    apply dnsgate_format_lines_add; [exact Hin | now rewrite NF]. }
  destruct rule_file as [content|]; simpl.
  - specialize (Hfile content eq_refl).
    destruct (existsb (String.eqb (hostname ++ String LF "")) (file_lines content))
      eqn:E.
    + exists content. split; [reflexivity|]. split.
      * apply Hadd, file_line_In_splitlines. now apply existsb_eqb_In.
      * intros c d [= <-] Hd. exact Hd.
    + exists (content ++ hostname ++ String LF ""). split; [reflexivity|]. split.
      * apply Hadd. rewrite (splitlines_app_line _ _ Hfile Hnl).
        apply in_or_app. right. now left.
      * intros c d [= <-] Hd.
        unfold extract_domain_set_from_dnsgate_format_file.
        rewrite (splitlines_app_line _ _ Hfile Hnl), fold_left_app.
        now apply dnsgate_format_lines_keep.
  - exists (hostname ++ String LF ""). split; [reflexivity|]. split.
    + apply Hadd. rewrite (splitlines_single _ Hnl). now left.
    + intros c d [=].
Qed.

Lemma appended_domain_is_extracted_witness :
  exists content',
    append_to_local_rule_file idna_ascii
      (Some ("# blacklist" ++ String LF ("biz" ++ String LF ""))) "ads.example.com"
    = Some (Some content')
    /\ In "ads.example.com" (extract_domain_set_from_dnsgate_format_file content')
    /\ (forall content d,
           Some ("# blacklist" ++ String LF ("biz" ++ String LF "")) = Some content ->
           In d (extract_domain_set_from_dnsgate_format_file content) ->
           In d (extract_domain_set_from_dnsgate_format_file content')).
Proof.
  apply (appended_domain_is_extracted idna_ascii
           (Some ("# blacklist" ++ String LF ("biz" ++ String LF "")))
           "ads.example.com" "ads.example.com").
  - intros content [= <-]. reflexivity.
  - reflexivity.
  - reflexivity.
Defined.

(** ** Pruning, continued *)

Lemma hits_zero_iff (domains_orig : DomainSet) (d : bytes) :
  hits domains_orig d = 0
  <-> forall c, In c (domains_to_check d) -> ~ In c domains_orig.
Proof.
  rewrite hits_domains_to_check.
  induction (domains_to_check d) as [|x l IH]; simpl.
  - split; [intros _ c Hc; destruct Hc | reflexivity].
  - destruct (mem x domains_orig) eqn:M; simpl.
    + split; [discriminate|]. intros H. exfalso.
      apply (H x); [now left | now apply mem_In].
    + rewrite IH. apply mem_not_In in M. split.
      * intros H c [<-|Hc]; auto.
      * intros H c Hc. apply H. now right.
Qed.

Lemma hits_positive (domains_orig : DomainSet) (d c : bytes) :
  In c (domains_to_check d) -> In c domains_orig -> 1 <= hits domains_orig d.
Proof.
  intros Hc Hin. destruct (hits domains_orig d) eqn:E; [|lia].
  exfalso. exact (proj1 (hits_zero_iff _ _) E c Hc Hin).
Qed.

(** X9: when the pass returns, the domains it leaves are exactly the
    domains of the input none of whose checks (the values of
    [domain_to_check]) is in the input. *)
Theorem prune_survivors (domains pruned : DomainSet) :
  prune_redundant_rules domains = Ok pruned ->
  forall d, In d pruned
            <-> In d domains
                /\ forall c, In c (domains_to_check d) -> ~ In c domains.
Proof.
  intros H d. rewrite (prune_redundant_rules_spec _ _ H d), hits_zero_iff.
  reflexivity.
Qed.

Lemma prune_survivors_witness :
  In "ads.example.biz" ["biz"; "example.org"]
  <-> In "ads.example.biz" ["biz"; "ads.example.biz"; "example.org"]
      /\ forall c, In c (domains_to_check "ads.example.biz") ->
                   ~ In c ["biz"; "ads.example.biz"; "example.org"].
Proof.
  apply (prune_survivors ["biz"; "ads.example.biz"; "example.org"]
           ["biz"; "example.org"]).
  reflexivity.
Defined.

Lemma exists_two_hits (orig l : DomainSet) :
  ~ (forall d, In d l -> hits orig d <= 1) ->
  exists d, In d l /\ 2 <= hits orig d.
Proof.
  induction l as [|d l IH]; intros N.
  - exfalso. apply N. intros d Hd. destruct Hd.
  - destruct (le_lt_dec (hits orig d) 1) as [Hle|Hgt].
    + destruct IH as [x [Hx Hh]].
      * intros H. apply N. intros y [<-|Hy]; auto.
      * exists x. split; [now right | exact Hh].
    + exists d. split; [now left | lia].
Qed.

(** X10: the pass returns exactly when no domain of the set has two of
    its checks in the set; otherwise it raises KeyError for a domain of
    the set. *)
Theorem prune_returns_or_raises (domains : DomainSet) :
  match prune_redundant_rules domains with
  | Ok _ => forall d, In d domains -> hits domains d <= 1
  | Raise e =>
      (exists d, e = KeyError d /\ In d domains)
      /\ exists d, In d domains /\ 2 <= hits domains d
  end.
Proof.
  destruct (prune_redundant_rules domains) as [T|e] eqn:P.
  - apply prune_redundant_rules_defined. eauto.
  - split; [exact (prune_loop_raises _ _ _ _ P)|].
    assert (N : ~ forall d, In d domains -> hits domains d <= 1).
    { intros H. apply prune_redundant_rules_defined in H.
      destruct H as [T H]. congruence. }
    now apply exists_two_hits.
Qed.

(** X11: the outcome of the pass does not depend on the order in which
    the set is iterated: for two orders of one set the pass raises
    KeyError both times, or returns both times, and then the same set. *)
Theorem prune_ignores_iteration_order (domains domains' : DomainSet) :
  Permutation domains domains' ->
  match prune_redundant_rules domains, prune_redundant_rules domains' with
  | Ok pruned, Ok pruned' => Permutation pruned pruned'
  | Raise (KeyError _), Raise (KeyError _) => True
  | _, _ => False
  end.
Proof. apply prune_order_independent. Qed.

Lemma prune_ignores_iteration_order_witness :
  match prune_redundant_rules ["biz"; "ads.example.biz"; "example.org"],
        prune_redundant_rules ["example.org"; "ads.example.biz"; "biz"] with
  | Ok pruned, Ok pruned' => Permutation pruned pruned'
  | Raise (KeyError _), Raise (KeyError _) => True
  | _, _ => False
  end.
Proof.
  apply (prune_ignores_iteration_order
           ["biz"; "ads.example.biz"; "example.org"]
           ["example.org"; "ads.example.biz"; "biz"]).
  apply Permutation_rev.
Defined.

Lemma reversed_labels_cons (d : bytes) :
  exists l, reversed_labels d = tld d :: l.
Proof.
  unfold tld. destruct (reversed_labels d) as [|t l] eqn:E; [|simpl; eauto].
  exfalso. unfold reversed_labels in E.
  apply (f_equal (@rev bytes)) in E. rewrite rev_involutive in E.
  exact (split_by_not_nil _ _ E).
Qed.

Lemma tld_alone (d : bytes) : reversed_labels d = [tld d] -> d = tld d.
Proof.
  intros E. rewrite <- (join_reversed_labels d) at 1. now rewrite E.
Qed.

(** X12: a rule for a top-level name covers the names under it.  When the
    set holds [t] and the pass returns, no other domain whose last label
    is [t] is left. *)
Theorem prune_removes_domains_under_tld (domains pruned : DomainSet) (d : bytes) :
  prune_redundant_rules domains = Ok pruned ->
  In (tld d) domains -> d <> tld d ->
  ~ In d pruned.
Proof.
  intros H Ht Hd Hin.
  apply (prune_redundant_rules_spec _ _ H) in Hin. destruct Hin as [_ H0].
  enough (1 <= hits domains d) by lia.
  apply hits_positive with (tld d); [|exact Ht].
  destruct (reversed_labels_cons d) as [l E].
  destruct l as [|x l]; [now apply tld_alone in E|].
  unfold domains_to_check. fold (reversed_labels d). rewrite E.
  apply in_map_iff. exists 1. split; [reflexivity|].
  apply in_seq. simpl. lia.
Qed.

Lemma prune_removes_domains_under_tld_witness :
  ~ In "ads.example.biz" ["biz"; "example.org"].
Proof.
  apply (prune_removes_domains_under_tld
           ["biz"; "ads.example.biz"; "example.org"] ["biz"; "example.org"]
           "ads.example.biz").
  - reflexivity.
  - simpl. now left.
  - discriminate.
Defined.

(** X13: the empty domain is the first check of every domain.  When the
    set holds the empty domain and the pass returns, it returns the empty
    set. *)
Theorem prune_with_empty_domain (domains pruned : DomainSet) :
  prune_redundant_rules domains = Ok pruned ->
  In "" domains ->
  pruned = [].
Proof.
  intros H He. destruct pruned as [|d pruned]; [reflexivity|]. exfalso.
  assert (Hin : In d (d :: pruned)) by now left.
  apply (prune_redundant_rules_spec _ _ H) in Hin. destruct Hin as [_ H0].
  enough (1 <= hits domains d) by lia.
  apply hits_positive with ""; [|exact He].
  destruct (reversed_labels_cons d) as [l E].
  unfold domains_to_check. fold (reversed_labels d). rewrite E.
  apply in_map_iff. exists 0. split; [reflexivity|].
  apply in_seq. simpl. lia.
Qed.

Lemma prune_with_empty_domain_witness : @nil bytes = [].
Proof.
  apply (prune_with_empty_domain [""; "ads.example.com"; "example.org"] []).
  - reflexivity.
  - simpl. now left.
Defined.

(** ** Grouping, continued *)

(** X14: the list [group_by_tld] returns does not depend on the order in
    which the set is iterated. *)
Theorem group_by_tld_ignores_iteration_order (domains domains' : DomainSet) :
  Permutation domains domains' -> group_by_tld domains = group_by_tld domains'.
Proof.
  intros HP. unfold group_by_tld. f_equal.
  apply sorted_permutation_unique; try apply list_sort_sorted.
  rewrite !list_sort_perm. now apply Permutation_map.
Qed.

Lemma group_by_tld_ignores_iteration_order_witness :
  group_by_tld ["z.org"; "tracker.example.com"; "com"; "ads.example.com"]
  = group_by_tld ["ads.example.com"; "com"; "tracker.example.com"; "z.org"].
Proof.
  apply (group_by_tld_ignores_iteration_order
           ["z.org"; "tracker.example.com"; "com"; "ads.example.com"]
           ["ads.example.com"; "com"; "tracker.example.com"; "z.org"]).
  apply Permutation_rev.
Defined.

Lemma StronglySorted_app_le {A : Type} (R : A -> A -> Prop) (l m : list A) :
  StronglySorted R (l ++ m) -> forall a b, In a l -> In b m -> R a b.
Proof.
  induction l as [|x l IH]; simpl; intros H a b Ha Hb; [destruct Ha|].
  apply StronglySorted_inv in H. destruct H as [Hs Hf].
  destruct Ha as [<-|Ha].
  - rewrite Forall_forall in Hf. apply Hf, in_or_app. now right.
  - now apply IH.
Qed.

Lemma labels_le_head (a b : bytes) (x y : list bytes) :
  labels_le (a :: x) (b :: y) -> String.compare a b <> Gt.
Proof.
  rewrite labels_le_iff. unfold labels_compare. simpl.
  destruct (String.compare a b); congruence.
Qed.

Lemma labels_le_nil (a : bytes) (x : list bytes) : ~ labels_le (a :: x) [].
Proof. rewrite labels_le_iff. unfold labels_compare. simpl. congruence. Qed.

(** X15: domains with the same top-level label are contiguous in the
    list [group_by_tld] returns: whatever stands between two domains of
    one top-level label has that top-level label too. *)
Theorem group_by_tld_groups (domains : DomainSet)
    (before between after : list bytes) (d1 d2 d3 : bytes) :
  group_by_tld domains = (before ++ d1 :: between ++ d3 :: after)%list ->
  tld d1 = tld d3 ->
  In d2 between ->
  tld d2 = tld d1.
Proof.
  intros E Ht Hin.
  pose proof (group_by_tld_sorted domains) as S. rewrite E in S.
  assert (L12 : labels_le (reversed_labels d1) (reversed_labels d2)).
  { replace (before ++ d1 :: between ++ d3 :: after)%list
      with ((before ++ [d1]) ++ (between ++ d3 :: after))%list in S
      by (rewrite <- app_assoc; reflexivity).
    rewrite map_app in S. apply (StronglySorted_app_le _ _ _ S).
    - apply in_map, in_or_app. right. now left.
    - apply in_map, in_or_app. now left. }
  assert (L23 : labels_le (reversed_labels d2) (reversed_labels d3)).
  { replace (before ++ d1 :: between ++ d3 :: after)%list
      with ((before ++ d1 :: between) ++ (d3 :: after))%list in S
      by (rewrite <- app_assoc; reflexivity).
    rewrite map_app in S. apply (StronglySorted_app_le _ _ _ S).
    - apply in_map, in_or_app. right. now right.
    - apply in_map. now left. }
  destruct (reversed_labels_cons d1) as [l1 E1].
  destruct (reversed_labels_cons d2) as [l2 E2].
  destruct (reversed_labels_cons d3) as [l3 E3].
  rewrite E1, E2 in L12. rewrite E2, E3 in L23.
  apply labels_le_head in L12, L23. rewrite <- Ht in L23.
  rewrite (string_compare_opp (tld d1) (tld d2)) in L23.
  destruct (String.compare (tld d1) (tld d2)) eqn:C; simpl in L23; try congruence.
  symmetry. now apply string_compare_Eq.
Qed.

Lemma group_by_tld_groups_witness : tld "a.b.lwn.net" = tld "lwn.net".
Proof.
  apply (group_by_tld_groups
           ["z.net"; "example.org"; "a.b.lwn.net"; "lwn.net"; "ads.example.com"]
           ["ads.example.com"] ["a.b.lwn.net"] ["example.org"]
           "lwn.net" "a.b.lwn.net" "z.net").
  - reflexivity.
  - reflexivity.
  - simpl. now left.
Defined.

(** ** Reconciliation, continued *)

Section ReconcileMore.

Variable TLD_EXTRACT : bytes -> ExtractResult.

Local Abbreviation psl := (extract_psl_domain TLD_EXTRACT).

Lemma strip_to_psl_NoDup (domains : DomainSet) :
  NoDup (strip_to_psl TLD_EXTRACT domains).
Proof.
  unfold strip_to_psl.
  enough (G : forall acc, NoDup acc ->
               NoDup (fold_left
                        (fun domains_stripped line => add (psl line) domains_stripped)
                        domains acc)) by (apply G; constructor).
  induction domains as [|d domains IH]; intros acc H; simpl; [exact H|].
  apply IH. now apply set_add_nodup.
Qed.

Lemma unblock_whitelisted_psl_removes (W C : DomainSet) (w : bytes) :
  NoDup C -> In w W -> ~ In (psl w) (unblock_whitelisted_psl TLD_EXTRACT W C).
Proof.
  unfold unblock_whitelisted_psl. revert C.
  induction W as [|w' W IH]; intros C HC Hw; [destruct Hw|]. simpl.
  destruct Hw as [->|Hw].
  - intros H. apply unblock_whitelisted_psl_incl in H.
    destruct (mem (psl w) C) eqn:M.
    + apply (set_remove_iff string_dec _ _ HC) in H. tauto.
    + apply mem_not_In in M. tauto.
  - apply IH; [|exact Hw].
    destruct (mem (psl w') C); [now apply set_remove_nodup | exact HC].
Qed.

Lemma readd_subdomains_keeps (orig W C : DomainSet) (x : bytes) :
  In x C -> In x (readd_subdomains TLD_EXTRACT orig W C).
Proof.
  unfold readd_subdomains. revert C.
  induction orig as [|o orig IH]; intros C H; simpl; [exact H|].
  apply IH. destruct (mem o W), (mem o C), (mem (psl o) C); simpl; auto.
  apply In_add. now right.
Qed.

Lemma readd_subdomains_origin (orig W C : DomainSet) (x : bytes) :
  In x (readd_subdomains TLD_EXTRACT orig W C) ->
  In x C \/ (In x orig /\ ~ In x W).
Proof.
  unfold readd_subdomains. revert C.
  induction orig as [|o orig IH]; intros C; simpl; [tauto|].
  intros H. apply IH in H. destruct H as [H|H]; [|tauto].
  destruct (mem o W) eqn:MW; simpl in H; [tauto|].
  destruct (mem o C), (mem (psl o) C); simpl in H; try tauto.
  apply In_add in H. destruct H as [->|H]; [|tauto].
  right. split; [now left | now apply mem_not_In].
Qed.

Lemma readd_subdomains_covers (orig W C : DomainSet) (d : bytes) :
  In d orig -> ~ In d W ->
  In d (readd_subdomains TLD_EXTRACT orig W C)
  \/ In (psl d) (readd_subdomains TLD_EXTRACT orig W C).
Proof.
  revert C. induction orig as [|o orig IH]; intros C Hd HW; [destruct Hd|].
  destruct Hd as [->|Hd]; [|now apply IH].
  unfold readd_subdomains. simpl. fold (readd_subdomains TLD_EXTRACT orig W).
  apply mem_not_In in HW. rewrite HW. simpl.
  destruct (mem d C) eqn:MC; simpl.
  - left. apply readd_subdomains_keeps. now apply mem_In.
  - destruct (mem (psl d) C) eqn:MP; simpl.
    + right. apply readd_subdomains_keeps. now apply mem_In.
    + left. apply readd_subdomains_keeps, In_add. now left.
Qed.

Lemma reduced_set_not_whitelisted (B W : DomainSet) (x : bytes) :
  In x (reduced_set TLD_EXTRACT B W) -> ~ In x W.
Proof.
  unfold reduced_set. intros H. apply readd_subdomains_origin in H.
  destruct H as [H|[_ H]]; [|exact H].
  destruct W as [|w W]; [intros []|].
  apply unblock_whitelisted_psl_incl, In_diff in H. tauto.
Qed.

Lemma reconcile_reduced (B W L : DomainSet) :
  reconcile TLD_EXTRACT true dnsmasq B W L
  = Ok (match L with
        | [] => diff (reduced_set TLD_EXTRACT B W) W
        | _ :: _ => union (diff (reduced_set TLD_EXTRACT B W) W) L
        end).
Proof. reflexivity. Qed.

Lemma In_reconciled (C W L : DomainSet) (x : bytes) :
  In x (match L with
        | [] => diff C W
        | _ :: _ => union (diff C W) L
        end)
  <-> (In x C /\ ~ In x W) \/ In x L.
Proof.
  destruct L as [|l L].
  - rewrite In_diff. simpl. tauto.
  - rewrite In_union, In_diff. tauto.
Qed.

Lemma reconcile_excludes_whitelisted (block_at_psl : bool) (mode : Mode)
    (B W L R : DomainSet) (w : bytes) :
  reconcile TLD_EXTRACT block_at_psl mode B W L = Ok R ->
  In w W -> In w R -> In w L.
Proof.
  unfold reconcile. intros H Hw HR.
  destruct (block_at_psl && negb (Mode_eqb mode hosts)).
  - simpl in H. injection H as <-. apply In_reconciled in HR. tauto.
  - destruct (block_at_psl && Mode_eqb mode hosts); simpl in H; [discriminate|].
    injection H as <-. apply In_reconciled in HR. tauto.
Qed.

Lemma reconcile_includes_local_blacklist (block_at_psl : bool) (mode : Mode)
    (B W L : DomainSet) :
  block_at_psl && Mode_eqb mode hosts = false ->
  exists R, reconcile TLD_EXTRACT block_at_psl mode B W L = Ok R
            /\ forall d, In d L -> In d R.
Proof.
  intros Hcfg. unfold reconcile. rewrite Hcfg.
  destruct (block_at_psl && negb (Mode_eqb mode hosts)); cbn [bind];
    (eexists; split; [reflexivity|]); intros d Hd; apply In_reconciled; now right.
Qed.

(** X16: the whitelist wins over the sources.  Whatever the mode and
    with or without root reduction, a whitelisted domain is in the set
    [reconcile] returns only if the local blacklist holds it. *)
Theorem whitelist_wins_over_sources (block_at_psl : bool) (mode : Mode)
    (B W L R : DomainSet) (w : bytes) :
  reconcile TLD_EXTRACT block_at_psl mode B W L = Ok R ->
  In w W -> In w R -> In w L.
Proof. apply reconcile_excludes_whitelisted. Qed.

(** X17: root reduction loses no blocked host.  With block_at_psl in
    dnsmasq mode, every domain of the sources that is not whitelisted is
    in the returned set, itself or by its public root. *)
Theorem root_reduction_covers_blacklist (B W L : DomainSet) (d : bytes) :
  In d B -> ~ In d W ->
  exists R,
    reconcile TLD_EXTRACT true dnsmasq B W L = Ok R
    /\ (In d R \/ In (psl d) R).
Proof.
  intros Hd HW. rewrite reconcile_reduced. eexists. split; [reflexivity|].
  rewrite !In_reconciled.
  destruct (readd_subdomains_covers B W
              match W with
              | [] => strip_to_psl TLD_EXTRACT B
              | _ :: _ =>
                  unblock_whitelisted_psl TLD_EXTRACT W
                    (diff (strip_to_psl TLD_EXTRACT B) W)
              end d Hd HW) as [H|H].
  - left. left. split; [exact H | exact HW].
  - right. left. split; [exact H|]. now apply reduced_set_not_whitelisted in H.
Qed.

(** X18: a whitelist entry unblocks its public root.  With block_at_psl
    in dnsmasq mode, the public root of a whitelisted domain is in the
    returned set only if the local blacklist holds it, or if the root is
    itself a domain of the sources that is not whitelisted. *)
Theorem whitelist_unblocks_root (B W L R : DomainSet) (w : bytes) :
  reconcile TLD_EXTRACT true dnsmasq B W L = Ok R ->
  In w W -> In (psl w) R ->
  In (psl w) L \/ (In (psl w) B /\ ~ In (psl w) W).
Proof.
  rewrite reconcile_reduced. intros [= <-] Hw HR.
  apply In_reconciled in HR. destruct HR as [[HR _]|HR]; [|now left].
  right. unfold reduced_set in HR. apply readd_subdomains_origin in HR.
  destruct HR as [HR|HR]; [|exact HR].
  exfalso. destruct W as [|w' W]; [destruct Hw|].
  revert HR. apply unblock_whitelisted_psl_removes; [|exact Hw].
  apply set_diff_nodup, strip_to_psl_NoDup.
Qed.

End ReconcileMore.

Lemma whitelist_wins_over_sources_witness : In "lwn.net" ["lwn.net"].
Proof.
  apply (whitelist_wins_over_sources sample_tld_extract true dnsmasq
           ["a.b.lwn.net"; "lwn.net"] ["lwn.net"; "example.org"] ["lwn.net"]
           ["a.b.lwn.net"; "lwn.net"] "lwn.net").
  - reflexivity.
  - simpl. now left.
  - simpl. right. now left.
Defined.

Lemma root_reduction_covers_blacklist_witness :
  exists R,
    reconcile sample_tld_extract true dnsmasq
      ["ads.example.com"; "a.b.lwn.net"] ["lwn.net"] [] = Ok R
    /\ (In "a.b.lwn.net" R
        \/ In (extract_psl_domain sample_tld_extract "a.b.lwn.net") R).
Proof.
  apply (root_reduction_covers_blacklist sample_tld_extract
           ["ads.example.com"; "a.b.lwn.net"] ["lwn.net"] [] "a.b.lwn.net").
  - simpl. right. now left.
  - intros [H|[]]. discriminate.
Defined.

Lemma whitelist_unblocks_root_witness :
  In (extract_psl_domain sample_tld_extract "www.lwn.net") ["biz"]
  \/ (In (extract_psl_domain sample_tld_extract "www.lwn.net")
        ["ads.example.com"; "lwn.net"; "a.lwn.net"]
      /\ ~ In (extract_psl_domain sample_tld_extract "www.lwn.net") ["www.lwn.net"]).
Proof.
  apply (whitelist_unblocks_root sample_tld_extract
           ["ads.example.com"; "lwn.net"; "a.lwn.net"] ["www.lwn.net"] ["biz"]
           ["lwn.net"; "example.com"; "biz"] "www.lwn.net").
  - reflexivity.
  - simpl. now left.
  - simpl. now left.
Defined.

(** X19: the set [reconcile] returns depends on the order in which the
    blacklist is iterated.  Let [r] be its own public root and the public
    root of a blacklisted [d] and of a whitelisted [w], all three
    different.  When the re-addition loop meets [r] before [d], only [r]
    is returned; when it meets [d] first, both are. *)
Theorem reconcile_depends_on_iteration_order
    (TLD_EXTRACT : bytes -> ExtractResult) (d r w : bytes) :
  extract_psl_domain TLD_EXTRACT d = r ->
  extract_psl_domain TLD_EXTRACT r = r ->
  extract_psl_domain TLD_EXTRACT w = r ->
  d <> r -> w <> d -> w <> r ->
  reconcile TLD_EXTRACT true dnsmasq [r; d] [w] [] = Ok [r]
  /\ reconcile TLD_EXTRACT true dnsmasq [d; r] [w] [] = Ok [r; d].
Proof.
  intros Hd Hr Hw Hdr Hwd Hwr.
  unfold reconcile, strip_to_psl, unblock_whitelisted_psl, readd_subdomains,
    diff, add, mem, union.
  split;
    repeat (cbn -[extract_psl_domain string_dec];
            rewrite ?Hd, ?Hr, ?Hw;
            match goal with
            | |- context [string_dec ?a ?b] =>
                destruct (string_dec a b); try congruence
            end);
    reflexivity.
Qed.

Lemma reconcile_depends_on_iteration_order_witness :
  reconcile sample_tld_extract true dnsmasq
    ["example.com"; "ads.example.com"] ["www.example.com"] []
  = Ok ["example.com"]
  /\ reconcile sample_tld_extract true dnsmasq
       ["ads.example.com"; "example.com"] ["www.example.com"] []
     = Ok ["example.com"; "ads.example.com"].
Proof.
  apply (reconcile_depends_on_iteration_order sample_tld_extract
           "ads.example.com" "example.com" "www.example.com");
    try reflexivity; discriminate.
Defined.

(** ** The run, continued *)

Section GenerateMore.

Variable idna : bytes -> option bytes.
Variable TLD_EXTRACT : bytes -> ExtractResult.

(** X20: a run that fails writes nothing.  Whatever ends the run (the
    rejected configuration, a KeyError of the pruning pass, an empty rule
    set), the output file is as it was and dnsmasq has not been
    restarted. *)
Theorem generate_failure_is_atomic
    (config : Dnsgate_Config) (env : Env) (w : World) (e : exn) :
  fst (generate idna TLD_EXTRACT config env w) = Raise e ->
  output_file (snd (generate idna TLD_EXTRACT config env w)) = output_file w
  /\ dnsmasq_restarts (snd (generate idna TLD_EXTRACT config env w))
     = dnsmasq_restarts w.
Proof.
  unfold generate.
  destruct (final_rule_set idna TLD_EXTRACT config env) as [[|d l]|e'];
    simpl; intros H; try discriminate; auto.
  destruct (backup config); simpl; auto.
  unfold backup_file_if_exists. destruct (output_file w) eqn:E; simpl; auto.
Qed.



End GenerateMore.

Lemma generate_failure_is_atomic_witness :
  output_file
    (snd (generate idna_ascii sample_tld_extract plain_config
            (one_source_env None (Some "biz")
               ("127.0.0.1 # local" ++ String LF "0.0.0.0 ads.example.biz"))
            sample_world))
  = output_file sample_world
  /\ dnsmasq_restarts
       (snd (generate idna_ascii sample_tld_extract plain_config
               (one_source_env None (Some "biz")
                  ("127.0.0.1 # local" ++ String LF "0.0.0.0 ads.example.biz"))
               sample_world))
     = dnsmasq_restarts sample_world.
Proof.
  apply (generate_failure_is_atomic idna_ascii sample_tld_extract plain_config
           (one_source_env None (Some "biz")
              ("127.0.0.1 # local" ++ String LF "0.0.0.0 ads.example.biz"))
           sample_world (KeyError "ads.example.biz")).
  vm_compute. reflexivity.
Defined.



(** ** The dnsmasq configuration file *)

Section TextFileFacts.

Variable char : Type.
Variable char_eqb : char -> char -> bool.
Variable char_isspace : char -> bool.
Variable hash : char.

(** [==] on characters decides equality, and [#] is not whitespace. *)
Hypothesis char_eqb_eq : forall c d, char_eqb c d = true <-> c = d.
Hypothesis hash_not_space : char_isspace hash = false.

Local Abbreviation comment_out := (comment_out_line char_eqb char_isspace hash).
Local Abbreviation uncomment := (uncomment_line char_eqb char_isspace hash).

Lemma text_eqb_eq (a b : list char) : text_eqb char_eqb a b = true <-> a = b.
Proof.
  revert b. induction a as [|x a IH]; intros [|y b]; simpl;
    try (split; [discriminate | congruence]); [tauto|].
  rewrite andb_true_iff, char_eqb_eq, IH. split; [intros [-> ->] | intros [= -> ->]]; auto.
Qed.

Lemma lines_eqb_eq (a b : list (list char)) :
  lines_eqb char_eqb a b = true <-> a = b.
Proof.
  revert b. induction a as [|x a IH]; intros [|y b]; simpl;
    try (split; [discriminate | congruence]); [tauto|].
  rewrite andb_true_iff, text_eqb_eq, IH. split; [intros [-> ->] | intros [= -> ->]]; auto.
Qed.

(** Whether a call writes or not, the file then holds [newlines]. *)
Lemma lines_after_rewrite_lines (body : list char -> list char * bool)
    (lines : list (list char)) :
  lines_after lines (rewrite_lines char_eqb body lines)
  = map (fun line => fst (body line)) lines.
Proof.
  unfold lines_after, rewrite_lines.
  destruct (lines_eqb char_eqb lines (map (fun line => fst (body line)) lines)) eqn:E;
    simpl; [|reflexivity].
  apply lines_eqb_eq in E. destruct (existsb _ lines); simpl; exact E.
Qed.

Lemma rewrite_lines_fixed (body : list char -> list char * bool)
    (lines : list (list char)) :
  (forall line, In line lines -> fst (body line) = line) ->
  fst (rewrite_lines char_eqb body lines) = None.
Proof.
  intros H. unfold rewrite_lines.
  replace (map (fun line => fst (body line)) lines) with lines.
  - rewrite (proj2 (lines_eqb_eq lines lines) eq_refl). simpl.
    now destruct (existsb _ lines).
  - rewrite <- (map_id lines) at 1. apply map_ext_in.
    intros l Hl. symmetry. now apply H.
Qed.

Lemma commented_line_startswith_hash (line : list char) :
  startswith char_eqb (text_strip char_isspace (hash :: line)) [hash] = true.
Proof.
  unfold text_strip. simpl. rewrite hash_not_space. simpl.
  destruct (text_rstrip char_isspace line); rewrite ?hash_not_space; simpl;
    now rewrite (proj2 (char_eqb_eq hash hash) eq_refl).
Qed.

Lemma occurs_in_cons (needle line : list char) (c : char) :
  occurs_in char_eqb needle line = true ->
  occurs_in char_eqb needle (c :: line) = true.
Proof. intros H. simpl. rewrite H. apply orb_true_r. Qed.

Lemma comment_out_line_stable (line_to_match line : list char) :
  fst (comment_out line_to_match (fst (comment_out line_to_match line)))
  = fst (comment_out line_to_match line).
Proof.
  unfold comment_out_line at 2 3.
  destruct (occurs_in char_eqb line_to_match line) eqn:O; simpl.
  - destruct (startswith char_eqb (text_strip char_isspace line) [hash]) eqn:S; simpl.
    + unfold comment_out_line. now rewrite O, S.
    + destruct (text_eqb char_eqb (text_strip char_isspace line) line) eqn:E; simpl.
      * unfold comment_out_line.
        destruct (occurs_in char_eqb line_to_match (hash :: line)); [|reflexivity].
        now rewrite commented_line_startswith_hash.
      * unfold comment_out_line. now rewrite O, S, E.
  - unfold comment_out_line. now rewrite O.
Qed.

Lemma uncomment_comment_out_line (line_to_match line : list char) :
  (occurs_in char_eqb line_to_match line = true ->
   startswith char_eqb (text_strip char_isspace line) [hash] = false) ->
  fst (uncomment line_to_match (fst (comment_out line_to_match line))) = line.
Proof.
  intros H. unfold comment_out_line.
  destruct (occurs_in char_eqb line_to_match line) eqn:O; simpl.
  - rewrite (H eq_refl).
    destruct (text_eqb char_eqb (text_strip char_isspace line) line) eqn:E; simpl.
    + unfold uncomment_line.
      now rewrite (occurs_in_cons _ _ hash O), commented_line_startswith_hash.
    + unfold uncomment_line. now rewrite O, (H eq_refl), E.
  - unfold uncomment_line. now rewrite O.
Qed.

(** X23: commenting out is done once.  After
    [comment_out_line_in_file], a second call with the same line to match
    finds nothing to change and writes nothing. *)
Theorem comment_out_line_in_file_twice
    (lines : list (list char)) (line_to_match : list char) :
  fst (comment_out_line_in_file char_eqb char_isspace hash
         (lines_after lines
            (comment_out_line_in_file char_eqb char_isspace hash lines line_to_match))
         line_to_match)
  = None.
Proof.
  unfold comment_out_line_in_file. rewrite lines_after_rewrite_lines.
  apply rewrite_lines_fixed. intros line Hin.
  apply in_map_iff in Hin. destruct Hin as [l [<- _]].
  apply comment_out_line_stable.
Qed.

(** X24: [uncomment_line_in_file] undoes [comment_out_line_in_file].  If
    no line that holds the line to match is a comment already, commenting
    out and then uncommenting leaves the file with the lines it had. *)
Theorem uncomment_undoes_comment_out
    (lines : list (list char)) (line_to_match : list char) :
  (forall line, In line lines ->
                occurs_in char_eqb line_to_match line = true ->
                startswith char_eqb (text_strip char_isspace line) [hash] = false) ->
  lines_after
    (lines_after lines
       (comment_out_line_in_file char_eqb char_isspace hash lines line_to_match))
    (uncomment_line_in_file char_eqb char_isspace hash
       (lines_after lines
          (comment_out_line_in_file char_eqb char_isspace hash lines line_to_match))
       line_to_match)
  = lines.
Proof.
  intros H. unfold comment_out_line_in_file, uncomment_line_in_file.
  rewrite !lines_after_rewrite_lines, map_map.
  rewrite <- (map_id lines) at 2. apply map_ext_in. intros line Hin.
  apply uncomment_comment_out_line. now apply H.
Qed.

End TextFileFacts.

Lemma comment_out_line_in_file_twice_witness :
  fst (comment_out_line_in_file Ascii.eqb isspace "#"%char
         (lines_after sample_dnsmasq_conf
            (comment_out_line_in_file Ascii.eqb isspace "#"%char
               sample_dnsmasq_conf sample_conf_dir_line))
         sample_conf_dir_line)
  = None.
Proof.
  apply (comment_out_line_in_file_twice ascii Ascii.eqb isspace "#"%char
           Ascii.eqb_eq eq_refl sample_dnsmasq_conf sample_conf_dir_line).
Defined.

Lemma uncomment_undoes_comment_out_witness :
  lines_after
    (lines_after sample_dnsmasq_conf
       (comment_out_line_in_file Ascii.eqb isspace "#"%char
          sample_dnsmasq_conf sample_conf_dir_line))
    (uncomment_line_in_file Ascii.eqb isspace "#"%char
       (lines_after sample_dnsmasq_conf
          (comment_out_line_in_file Ascii.eqb isspace "#"%char
             sample_dnsmasq_conf sample_conf_dir_line))
       sample_conf_dir_line)
  = sample_dnsmasq_conf.
Proof.
  apply (uncomment_undoes_comment_out ascii Ascii.eqb isspace "#"%char
           Ascii.eqb_eq eq_refl sample_dnsmasq_conf sample_conf_dir_line).
  intros line Hin. simpl in Hin.
  repeat (destruct Hin as [<-|Hin]; [vm_compute; intros; congruence|]).
  destruct Hin.
Defined.

Example comment_out_sample :
  comment_out_line_in_file Ascii.eqb isspace "#"%char
    sample_dnsmasq_conf sample_conf_dir_line
  = (Some (map list_ascii_of_string
             ["# Configuration file for dnsmasq."; "#conf-dir=/etc/dnsmasq.d";
              " conf-dir=/etc/dnsmasq.d"; "no-resolv"]), true).
Proof. vm_compute. reflexivity. Qed.

(** ** Validation and the final list *)

Section FinalListFacts.

Variable idna : bytes -> option bytes.
Variable TLD_EXTRACT : bytes -> ExtractResult.

Lemma validate_domain_list_NoDup (domains : DomainSet) :
  NoDup (validate_domain_list idna domains).
Proof.
  unfold validate_domain_list.
  enough (G : forall acc, NoDup acc ->
               NoDup (fold_left
                        (fun valid_domains hostname =>
                           match idna hostname with
                           | Some hostname => add hostname valid_domains
                           | None => valid_domains
                           end) domains acc)) by (apply G; constructor).
  induction domains as [|d domains IH]; intros acc H; simpl; [exact H|].
  apply IH. destruct (idna d); [now apply set_add_nodup | exact H].
Qed.

(** X25: [validate_domain_list] never fails and keeps exactly the names
    the codec accepts, in their encoded form and without duplicates: a
    domain is in the result if and only if it is the encoding of a domain
    of the input. *)
Theorem validate_domain_list_keeps_encodable (domains : DomainSet) :
  NoDup (validate_domain_list idna domains)
  /\ forall d, In d (validate_domain_list idna domains)
               <-> exists hostname, In hostname domains /\ idna hostname = Some d.
Proof.
  split; [apply validate_domain_list_NoDup|].
  intros d. apply In_validate_domain_list.
Qed.

Lemma prune_redundant_rules_NoDup (domains pruned : DomainSet) :
  prune_redundant_rules domains = Ok pruned -> NoDup domains -> NoDup pruned.
Proof.
  intros H. rewrite !(NoDup_count_occ string_dec). intros N x.
  pose proof (prune_loop_count _ _ _ _ H x) as C. specialize (N x). lia.
Qed.

(** X26: the list a run is about to write lists no domain twice and is
    in ascending order of the reversed-label keys. *)
Theorem final_rule_set_sorted_without_duplicates
    (config : Dnsgate_Config) (env : Env) (final : list bytes) :
  final_rule_set idna TLD_EXTRACT config env = Ok final ->
  NoDup final /\ StronglySorted labels_le (map reversed_labels final).
Proof.
  unfold final_rule_set. intros H.
  destruct (reconcile _ _ _ _ _ _) as [R|e]; simpl in H; [|discriminate].
  destruct (prune_redundant_rules _) as [T|e] eqn:HT; simpl in H; [|discriminate].
  injection H as <-. split; [|apply group_by_tld_sorted].
  apply (Permutation_NoDup (Permutation_sym (group_by_tld_perm T))).
  apply (prune_redundant_rules_NoDup _ _ HT), validate_domain_list_NoDup.
Qed.

End FinalListFacts.

Lemma final_rule_set_sorted_without_duplicates_witness :
  NoDup ["example.com"; "a.b.lwn.net"; "tracker.example.org"]
  /\ StronglySorted labels_le
       (map reversed_labels ["example.com"; "a.b.lwn.net"; "tracker.example.org"]).
Proof.
  apply (final_rule_set_sorted_without_duplicates idna_ascii sample_tld_extract
           sample_config sample_env).
  vm_compute. reflexivity.
Defined.

(** X27: comment lines and blank lines of a hosts-format source
    contribute nothing: a line with no field, or whose first field starts
    with [#], leaves the set as it is. *)
Theorem hosts_format_comment_line_skipped (domains : DomainSet) (line : bytes) :
  split_ws (replace TAB " " line) = []
  \/ (exists f rest, split_ws (replace TAB " " line) = String "#" f :: rest) ->
  hosts_format_line domains line = domains.
Proof.
  intros H. unfold hosts_format_line.
  enough (E : hosts_format_clean_line line = "") by now rewrite E.
  unfold hosts_format_clean_line.
  pose proof (split_ws_fields (replace TAB " " line)) as F.
  rewrite (join_fields_stripped _ F).
  destruct H as [->|[f [rest ->]]]; [reflexivity|].
  destruct rest; reflexivity.
Qed.

Lemma hosts_format_comment_line_skipped_witness :
  hosts_format_line ["lwn.net"] (String TAB "  # 0.0.0.0 ads.example.com")
  = ["lwn.net"].
Proof.
  apply (hosts_format_comment_line_skipped ["lwn.net"]
           (String TAB "  # 0.0.0.0 ads.example.com")).
  right. exists "", ["0.0.0.0"; "ads.example.com"]. vm_compute. reflexivity.
Defined.

(** ** The commands *)

Lemma append_to_local_rule_file_step (idna : bytes -> option bytes)
    (rule_file : option bytes) (idn hostname : bytes) :
  rule_file_terminated rule_file = true ->
  idna idn = Some hostname ->
  clean_domain hostname = true ->
  exists rule_file',
    append_to_local_rule_file idna rule_file idn = Some rule_file'
    /\ rule_file_terminated rule_file' = true
    /\ In hostname (rule_file_domains rule_file')
    /\ forall d, In d (rule_file_domains rule_file) ->
                 In d (rule_file_domains rule_file').
Proof.
  intros Hfile Hidna Hclean. unfold append_to_local_rule_file. rewrite Hidna.
  pose proof (clean_domain_normal_form _ Hclean) as NF.
  pose proof (clean_domain_parts _ Hclean) as [Hne [Hsp _]].
  pose proof (no_space_no_newline _ Hsp) as Hnl.
  assert (Hadd : forall content,
             In hostname (splitlines content) ->
             In hostname (extract_domain_set_from_dnsgate_format_file content)).
  { intros content Hin. rewrite <- NF at 1.
    apply dnsgate_format_lines_add; [exact Hin | now rewrite NF]. }
  eexists. split; [reflexivity|].
  destruct rule_file as [content|]; simpl in *.
  - destruct (existsb (String.eqb (hostname ++ String LF "")) (file_lines content))
      eqn:E; simpl.
    + split; [exact Hfile|]. split; [|auto].
      apply Hadd, file_line_In_splitlines. now apply existsb_eqb_In.
    + split; [apply lf_terminated_app_line|]. split.
      * apply Hadd. rewrite (splitlines_app_line _ _ Hfile Hnl).
        apply in_or_app. right. now left.
      * intros d Hd. unfold extract_domain_set_from_dnsgate_format_file.
        rewrite (splitlines_app_line _ _ Hfile Hnl), fold_left_app.
        now apply dnsgate_format_lines_keep.
  - split; [apply (lf_terminated_app_line "" hostname)|]. split; [|intros d []].
    apply Hadd. rewrite (splitlines_single _ Hnl). now left.
Qed.

Lemma append_all_spec (idna : bytes -> option bytes) (domains : list bytes) :
  forall rule_file,
    rule_file_terminated rule_file = true ->
    (forall idn, In idn domains ->
                 exists hostname, idna idn = Some hostname
                                  /\ clean_domain hostname = true) ->
    exists rule_file',
      append_all idna rule_file domains = (rule_file', true)
      /\ rule_file_terminated rule_file' = true
      /\ (forall d, In d (rule_file_domains rule_file) ->
                    In d (rule_file_domains rule_file'))
      /\ (forall idn hostname,
             In idn domains -> idna idn = Some hostname ->
             In hostname (rule_file_domains rule_file')).
Proof.
  induction domains as [|idn domains IH]; intros rule_file Ht Hall; simpl.
  - exists rule_file. repeat split; auto. intros idn h [].
  - destruct (Hall idn (or_introl eq_refl)) as [h [Hh Hc]].
    destruct (append_to_local_rule_file_step idna rule_file idn h Ht Hh Hc)
      as [file1 [E1 [T1 [I1 K1]]]].
    rewrite E1.
    destruct (IH file1 T1) as [file2 [E2 [T2 [K2 I2]]]].
    { intros x Hx. apply Hall. now right. }
    exists file2. split; [exact E2|]. split; [exact T2|]. split; [auto|].
    intros x hx [<-|Hx] Hhx.
    + apply K2. congruence.
    + now apply (I2 x).
Qed.

Section CommandFacts.

Variable idna : bytes -> option bytes.
Variable TLD_EXTRACT : bytes -> ExtractResult.

(** X28: [blacklist] takes effect in the run it starts.  When the local
    blacklist is missing, empty or ends in LF, every argument encodes to a
    clean domain, and the configuration is not the rejected one, the
    command runs [generate] on the extended file, and the set that run
    reconciles holds every one of the encoded domains. *)
Theorem blacklist_command_takes_effect
    (config : Dnsgate_Config) (env : Env) (w : World) (domains : list bytes) :
  rule_file_terminated (blacklist_file env) = true ->
  (forall idn, In idn domains ->
               exists hostname, idna idn = Some hostname
                                /\ clean_domain hostname = true) ->
  block_at_psl config && Mode_eqb (mode config) hosts = false ->
  exists env' R,
    blacklist idna TLD_EXTRACT config env w domains
    = (Some (generate idna TLD_EXTRACT config env' w), env')
    /\ reconcile TLD_EXTRACT (block_at_psl config) (mode config)
         (read_sources idna config env') (read_whitelist idna env')
         (read_blacklist env') = Ok R
    /\ forall idn hostname,
         In idn domains -> idna idn = Some hostname -> In hostname R.
Proof.
  intros Ht Hall Hcfg. unfold blacklist.
  destruct (append_all_spec idna domains (blacklist_file env) Ht Hall)
    as [file' [E [T [K I]]]].
  rewrite E.
  set (env' := mkEnv (whitelist_file env) file' (url_bytes env)
                 (output_file_header env)).
  destruct (reconcile_includes_local_blacklist TLD_EXTRACT
              (block_at_psl config) (mode config)
              (read_sources idna config env') (read_whitelist idna env')
              (read_blacklist env') Hcfg) as [R [HR HL]].
  exists env', R. split; [reflexivity|]. split; [exact HR|].
  intros idn h Hin Hh. apply HL. exact (I idn h Hin Hh).
Qed.

(** X29: [whitelist] takes effect in the run it starts.  When the local
    whitelist is missing, empty or ends in LF and every argument encodes
    to a clean domain that the codec leaves unchanged, the command runs
    [generate] on the extended file, and the set that run reconciles holds
    none of the encoded domains, the ones of the local blacklist apart. *)
Theorem whitelist_command_takes_effect
    (config : Dnsgate_Config) (env : Env) (w : World) (domains : list bytes) :
  rule_file_terminated (whitelist_file env) = true ->
  (forall idn, In idn domains ->
               exists hostname, idna idn = Some hostname
                                /\ clean_domain hostname = true
                                /\ idna hostname = Some hostname) ->
  exists env',
    whitelist idna TLD_EXTRACT config env w domains
    = (Some (generate idna TLD_EXTRACT config env' w), env')
    /\ forall R idn hostname,
         reconcile TLD_EXTRACT (block_at_psl config) (mode config)
           (read_sources idna config env') (read_whitelist idna env')
           (read_blacklist env') = Ok R ->
         In idn domains -> idna idn = Some hostname ->
         In hostname R -> In hostname (read_blacklist env').
Proof.
  intros Ht Hall. unfold whitelist.
  destruct (append_all_spec idna domains (whitelist_file env) Ht)
    as [file' [E [T [K I]]]].
  { intros idn Hin. destruct (Hall idn Hin) as [h [H1 [H2 _]]]. eauto. }
  rewrite E.
  set (env' := mkEnv file' (blacklist_file env) (url_bytes env)
                 (output_file_header env)).
  exists env'. split; [reflexivity|].
  intros R idn h HR Hin Hh HinR.
  apply (reconcile_excludes_whitelisted TLD_EXTRACT _ _ _ _ _ _ h HR); [|exact HinR].
  destruct (Hall idn Hin) as [h' [H1 [_ H3]]].
  assert (h' = h) by congruence. subst h'.
  specialize (I idn h Hin Hh).
  unfold read_whitelist, env'. simpl. unfold rule_file_domains in I.
  destruct file' as [content|]; [|destruct I].
  destruct (extract_domain_set_from_dnsgate_format_file content) as [|x l] eqn:X;
    [destruct I|].
  apply In_validate_domain_list. exists h. split; [exact I | exact H3].
Qed.

End CommandFacts.

Lemma blacklist_command_takes_effect_witness :
  exists env' R,
    blacklist idna_ascii sample_tld_extract sample_config
      (one_source_env (Some "lwn.net") (Some ("biz" ++ String LF ""))
         ("0.0.0.0 a.b.lwn.net" ++ String LF ""))
      sample_world ["lwn.net"; "doubleclick.net"]
    = (Some (generate idna_ascii sample_tld_extract sample_config env' sample_world),
       env')
    /\ reconcile sample_tld_extract (block_at_psl sample_config) (mode sample_config)
         (read_sources idna_ascii sample_config env')
         (read_whitelist idna_ascii env') (read_blacklist env') = Ok R
    /\ forall idn hostname,
         In idn ["lwn.net"; "doubleclick.net"] ->
         idna_ascii idn = Some hostname -> In hostname R.
Proof.
  apply (blacklist_command_takes_effect idna_ascii sample_tld_extract
           sample_config
           (one_source_env (Some "lwn.net") (Some ("biz" ++ String LF ""))
              ("0.0.0.0 a.b.lwn.net" ++ String LF ""))
           sample_world ["lwn.net"; "doubleclick.net"]).
  - reflexivity.
  - intros idn [<-|[<-|[]]]; eexists; split; reflexivity.
  - reflexivity.
Defined.

Lemma whitelist_command_takes_effect_witness :
  exists env',
    whitelist idna_ascii sample_tld_extract plain_config
      (one_source_env None (Some ("lwn.net" ++ String LF ""))
         ("0.0.0.0 lwn.net" ++ String LF "0.0.0.0 example.org" ++ String LF ""))
      sample_world ["example.org"; "lwn.net"]
    = (Some (generate idna_ascii sample_tld_extract plain_config env' sample_world),
       env')
    /\ forall R idn hostname,
         reconcile sample_tld_extract (block_at_psl plain_config) (mode plain_config)
           (read_sources idna_ascii plain_config env')
           (read_whitelist idna_ascii env') (read_blacklist env') = Ok R ->
         In idn ["example.org"; "lwn.net"] -> idna_ascii idn = Some hostname ->
         In hostname R -> In hostname (read_blacklist env').
Proof.
  apply (whitelist_command_takes_effect idna_ascii sample_tld_extract
           plain_config
           (one_source_env None (Some ("lwn.net" ++ String LF ""))
              ("0.0.0.0 lwn.net" ++ String LF "0.0.0.0 example.org" ++ String LF ""))
           sample_world ["example.org"; "lwn.net"]).
  - reflexivity.
  - intros idn [<-|[<-|[]]]; eexists; repeat split; reflexivity.
Defined.

Example whitelist_command_sample :
  fst (whitelist idna_ascii sample_tld_extract plain_config
         (one_source_env None (Some ("lwn.net" ++ String LF ""))
            ("0.0.0.0 lwn.net" ++ String LF "0.0.0.0 example.org" ++ String LF ""))
         sample_world ["example.org"; "lwn.net"])
  = Some (Ok tt,
          mkWorld (Some ("# generated" ++ String LF ("server=/.lwn.net/" ++ String LF "")))
            ["old"] 1).
Proof. vm_compute. reflexivity. Qed.

(** ** Root reduction *)

Lemma add_length (d : bytes) (s : DomainSet) :
  List.length (add d s) <= S (List.length s).
Proof.
  unfold add. induction s as [|a s IH]; simpl; [lia|].
  destruct (string_dec d a); simpl; lia.
Qed.

(** X30: [strip_to_psl] returns exactly the public roots of the domains
    it is given, each once, and so never more domains than it was given. *)
Theorem strip_to_psl_roots (TLD_EXTRACT : bytes -> ExtractResult)
    (domains : DomainSet) :
  NoDup (strip_to_psl TLD_EXTRACT domains)
  /\ List.length (strip_to_psl TLD_EXTRACT domains) <= List.length domains
  /\ forall r, In r (strip_to_psl TLD_EXTRACT domains)
               <-> exists d, In d domains /\ r = extract_psl_domain TLD_EXTRACT d.
Proof.
  split; [apply strip_to_psl_NoDup|]. split; [|intros r; apply In_strip_to_psl].
  unfold strip_to_psl.
  enough (G : forall acc,
             List.length
               (fold_left
                  (fun domains_stripped line =>
                     add (extract_psl_domain TLD_EXTRACT line) domains_stripped)
                  domains acc)
             <= List.length acc + List.length domains)
    by (specialize (G []); simpl in G; exact G).
  induction domains as [|d domains IH]; intros acc; simpl; [lia|].
  specialize (IH (add (extract_psl_domain TLD_EXTRACT d) acc)).
  pose proof (add_length (extract_psl_domain TLD_EXTRACT d) acc). lia.
Qed.

Example strip_to_psl_sample :
  strip_to_psl sample_tld_extract
    ["ads.example.com"; "www.ads.example.com"; "a.b.example.co.uk"; "example.com"]
  = ["example.com"; "example.co.uk"].
Proof. reflexivity. Qed.
